(** * Blockly C++ generator: a shallow embedding of [generators/cpp.js] and
    of the per-block rules of [generators/cpp/*.js].

    JavaScript strings are modelled as [string] (one [ascii] per code unit;
    every character the rules inspect is ASCII), numbers that the rules
    compute with as [Z] (index deltas, folded indices: integers far below
    2^53, where JavaScript arithmetic is exact), operator orders as [Q]
    ([ORDER_SCOPE] is 0.1), JavaScript objects used as dictionaries as
    [gmap], and the insertion-ordered [definitions_] dictionary as an
    association list. *)

From Stdlib Require Import Ascii String QArith Qround.
From stdpp Require Import base strings gmap list pretty.

Local Open Scope Z_scope.

(** ** JavaScript string primitives *)

Module Js.

Definition LF : ascii := "010"%char.
Definition DQUOTE : ascii := "034"%char.
Definition BACKSLASH : ascii := "\"%char.
Definition DOLLAR : ascii := "$"%char.

Definition str (c : ascii) : string := String c EmptyString.

(** [s.replace(/c/g, r)] for a pattern that is one literal character. *)
Fixpoint replaceAll (c : ascii) (r : string) (s : string) : string :=
  match s with
  | EmptyString => EmptyString
  | String a s' =>
      (if Ascii.eqb a c then r else str a) +:+ replaceAll c r s'
  end.

(** [a || b] on strings: the empty string is the only falsy string. *)
Definition or_else (a b : string) : string :=
  match a with
  | EmptyString => b
  | _ => a
  end.

(** [a.join(sep)] *)
Fixpoint join (sep : string) (l : list string) : string :=
  match l with
  | [] => EmptyString
  | [x] => x
  | x :: l' => x +:+ sep +:+ join sep l'
  end.

(** The character classes [\d] and [\w] of JavaScript regular
    expressions. *)
Definition is_digit (c : ascii) : bool :=
  let n := nat_of_ascii c in ((48 <=? n) && (n <=? 57))%nat.

Definition is_word_char (c : ascii) : bool :=
  let n := nat_of_ascii c in
  (((48 <=? n) && (n <=? 57)) || ((65 <=? n) && (n <=? 90)) ||
   ((97 <=? n) && (n <=? 122)) || (n =? 95))%nat.

Fixpoint all_chars (p : ascii -> bool) (s : string) : bool :=
  match s with
  | EmptyString => true
  | String a s' => p a && all_chars p s'
  end.

(** [s.match(/^\w+$/)] as a truth value. *)
Definition is_word (s : string) : bool :=
  match s with
  | EmptyString => false
  | _ => all_chars is_word_char s
  end.

(** The character class [\s], restricted to its ASCII members. *)
Definition is_space (c : ascii) : bool :=
  let n := nat_of_ascii c in
  ((n =? 32) || ((9 <=? n) && (n <=? 13)))%nat.

(** [needle] is a prefix of [s]. *)
Fixpoint starts_with (needle s : string) : bool :=
  match needle, s with
  | EmptyString, _ => true
  | String a n', String b s' => Ascii.eqb a b && starts_with n' s'
  | String _ _, EmptyString => false
  end.

(** [s.indexOf(needle) !== -1] *)
Fixpoint includes (needle s : string) : bool :=
  starts_with needle s ||
  match s with
  | EmptyString => false
  | String _ s' => includes needle s'
  end.

Definition NL : string := str LF.

(** [String(n)] for an integer [n]. *)
Definition String_of_Z (n : Z) : string := pretty n.

(** The longest prefix of decimal digits, read as a number, and how many
    digits it has. *)
Fixpoint read_digits (acc : Z) (count : nat) (s : string) : Z * nat * string :=
  match s with
  | String a s' =>
      if is_digit a
      then read_digits (10 * acc + Z.of_nat (nat_of_ascii a - 48)) (S count) s'
      else (acc, count, s)
  | EmptyString => (acc, count, s)
  end.

Definition skip_spaces : string -> string :=
  fix go (s : string) : string :=
    match s with
    | String a s' => if is_space a then go s' else s
    | EmptyString => s
    end.

(** [parseInt(s, 10)]: leading white space, an optional sign, then as many
    digits as there are; [None] stands for [NaN]. *)
Definition parseInt (s : string) : option Z :=
  let s := skip_spaces s in
  let '(neg, s) :=
    match s with
    | String "-" s' => (true, s')
    | String "+" s' => (false, s')
    | _ => (false, s)
    end in
  let '(n, count, _) := read_digits 0 0 s in
  match count with
  | O => None
  | _ => Some (if neg then - n else n)
  end.

End Js.

(** ** [generators/cpp.js]: string quoting *)

Module CPP_quote.
Import Js.

(** [CPP.quote_]: four global replacements in the order of the source, then
    the surrounding double quotes.  The replacement text of the newline is
    the two characters backslash, line feed (the JavaScript literal
    ['\\\n']). *)
Definition quote_ (s : string) : string :=
  let s := replaceAll BACKSLASH (str BACKSLASH +:+ str BACKSLASH) s in
  let s := replaceAll LF (str BACKSLASH +:+ str LF) s in
  let s := replaceAll DOLLAR (str BACKSLASH +:+ str DOLLAR) s in
  let s := replaceAll DQUOTE (str BACKSLASH +:+ str DQUOTE) s in
  str DQUOTE +:+ s +:+ str DQUOTE.

(** The four replacements seen as one pass over the text: what each
    character of the input becomes. *)
Definition escape_char (c : ascii) : string :=
  if Ascii.eqb c BACKSLASH then str BACKSLASH +:+ str BACKSLASH
  else if Ascii.eqb c LF then str BACKSLASH +:+ str LF
  else if Ascii.eqb c DOLLAR then str BACKSLASH +:+ str DOLLAR
  else if Ascii.eqb c DQUOTE then str BACKSLASH +:+ str DQUOTE
  else str c.

Fixpoint escape (s : string) : string :=
  match s with
  | EmptyString => EmptyString
  | String c s' => escape_char c +:+ escape s'
  end.

(** *** Reading a string literal back, by the rules of C++

    The generator targets C++, whose translation phases fix how the text of
    a string literal is read: phase 2 deletes every backslash that is
    immediately followed by a new-line (line splicing), then the literal is
    tokenised and its escape sequences are replaced.  [\$] is not a
    standard escape; it is read as [$], as GCC and Clang do. *)

(** Phase 2: line splicing. *)
Fixpoint splice_lines (s : string) : string :=
  match s with
  | String a (String b s'' as s') =>
      if Ascii.eqb a BACKSLASH && Ascii.eqb b LF then splice_lines s''
      else String a (splice_lines s')
  | _ => s
  end.

(** The simple escape sequences. *)
Definition unescape (c : ascii) : option ascii :=
  if Ascii.eqb c BACKSLASH then Some BACKSLASH
  else if Ascii.eqb c DQUOTE then Some DQUOTE
  else if Ascii.eqb c "'"%char then Some "'"%char
  else if Ascii.eqb c "?"%char then Some "?"%char
  else if Ascii.eqb c DOLLAR then Some DOLLAR
  else if Ascii.eqb c "n"%char then Some LF
  else if Ascii.eqb c "t"%char then Some "009"%char
  else if Ascii.eqb c "r"%char then Some "013"%char
  else if Ascii.eqb c "a"%char then Some "007"%char
  else if Ascii.eqb c "b"%char then Some "008"%char
  else if Ascii.eqb c "f"%char then Some "012"%char
  else if Ascii.eqb c "v"%char then Some "011"%char
  else None.

(** The characters after the opening quote, up to the closing quote, which
    must end the text.  A raw new-line inside a literal is ill-formed. *)
Fixpoint decode_body (s : string) : option string :=
  match s with
  | EmptyString => None
  | String a s' =>
      if Ascii.eqb a DQUOTE then
        match s' with EmptyString => Some EmptyString | _ => None end
      else if Ascii.eqb a LF then None
      else if Ascii.eqb a BACKSLASH then
        match s' with
        | String b s'' =>
            match unescape b with
            | Some c => String c <$> decode_body s''
            | None => None
            end
        | EmptyString => None
        end
      else String a <$> decode_body s'
  end.

Definition cpp_decode (literal : string) : option string :=
  match splice_lines literal with
  | String q body => if Ascii.eqb q DQUOTE then decode_body body else None
  | EmptyString => None
  end.

(** The text without its new-line characters. *)
Fixpoint drop_newlines (s : string) : string :=
  match s with
  | EmptyString => EmptyString
  | String c s' =>
      if Ascii.eqb c LF then drop_newlines s' else String c (drop_newlines s')
  end.

(** The first character of a text is not a new-line. *)
Definition head_not_LF (t : string) : Prop :=
  match t with
  | String b _ => b ≠ LF
  | EmptyString => True
  end.

End CPP_quote.


(** ** The JavaScript surroundings of the generator *)

(** What [throw] carries. *)
Inductive JsError :=
  | Error (message : string)
  | TypeError (message : string)
  | ReferenceError (message : string).

(** A value of JavaScript type [string|number]. *)
Inductive StrOrNum :=
  | JStr (s : string)
  | JNum (n : Z)
  | JNaN.

Definition toStr (v : StrOrNum) : string :=
  match v with
  | JStr s => s
  | JNum n => Js.String_of_Z n
  | JNaN => "NaN"
  end.

(** ** Operator orders ([generators/cpp.js], lines 57 to 75) *)

Definition ORDER_ATOMIC : Q := 0.
Definition ORDER_SCOPE : Q := 1 # 10.
Definition ORDER_UNARY_POSTFIX : Q := 1.
Definition ORDER_UNARY_PREFIX : Q := 2.
Definition ORDER_PTR_TO_MEM : Q := 3.
Definition ORDER_MULTIPLICATIVE : Q := 4.
Definition ORDER_ADDITIVE : Q := 5.
Definition ORDER_SHIFT : Q := 6.
Definition ORDER_RELATIONAL : Q := 7.
Definition ORDER_EQUALITY : Q := 8.
Definition ORDER_BITWISE_AND : Q := 9.
Definition ORDER_BITWISE_XOR : Q := 10.
Definition ORDER_BITWISE_OR : Q := 11.
Definition ORDER_LOGICAL_AND : Q := 12.
Definition ORDER_LOGICAL_OR : Q := 13.
Definition ORDER_CONDITIONAL : Q := 14.
Definition ORDER_ASSIGNMENT : Q := 14.
Definition ORDER_COMMA : Q := 15.
Definition ORDER_NONE : Q := 99.

(** ** Blocks, as a rule reads them

    A rule never walks the block tree itself: it reads fields, asks whether
    an input exists, and obtains the code of what is plugged into an input
    from the driver.  A block therefore carries, for every input, what the
    driver's [blockToCode] returned for the block connected there: the tuple
    [(code, order)] of a value block, or the text of a statement chain. *)

#[warnings="-register-all"]
Inductive Block := mkBlock {
  (** [block.type] *)
  type : string;
  (** [block.getFieldValue(name)]; no entry is [null] *)
  fields : gmap string string;
  (** value inputs: [None] when nothing is connected *)
  valueInputs : gmap string (option (string * Q));
  (** statement inputs: [None] when nothing is connected *)
  statementInputs : gmap string (option string);
  (** [block.workspace.options.oneBasedIndex] *)
  oneBasedIndex : bool;
  (** [block.getSurroundLoop()]; [None] is [null] *)
  getSurroundLoop : option Block;
  (** [block.suppressPrefixSuffix] *)
  suppressPrefixSuffix : bool;
}.

Definition getFieldValue (block : Block) (name : string) : option string :=
  fields block !! name.

(** [block.getField(name)] as a truth value. *)
Definition getField (block : Block) (name : string) : bool :=
  bool_decide (is_Some (fields block !! name)).

(** [block.getInput(name)] as a truth value. *)
Definition getInput (block : Block) (name : string) : bool :=
  bool_decide (is_Some (valueInputs block !! name)) ||
  bool_decide (is_Some (statementInputs block !! name)).

(** ** The name table *)

Inductive NameType := VARIABLE | PROCEDURE | DEVELOPER_VARIABLE.

(** Modelled from the spec: the name table [Blockly.Names] ([core/names.js]
    is not among the sources).  It holds the reserved words of the target
    language and the textual identifiers in use in the current run. *)
Record Names := mkNames {
  reservedDict_ : gset string;
  dbReverse_ : gset string;
}.

(** Every identifier that a new name must differ from. *)
Definition taken (db : Names) : gset string :=
  dbReverse_ db ∪ reservedDict_ db.

(** The [i]-th spelling tried for a wanted name: the name itself, then the
    name followed by 2, 3, ... *)
Definition candidate (name : string) (i : nat) : string :=
  match i with
  | O => name
  | S _ => name +:+ pretty (S i)
  end.

Fixpoint firstFree (used : gset string) (name : string) (i fuel : nat) : string :=
  match fuel with
  | O => candidate name i
  | S fuel' =>
      if decide (candidate name i ∈ used)
      then firstFree used name (S i) fuel'
      else candidate name i
  end.

(** Modelled from the spec: [Names.getDistinctName], which chooses a fresh,
    collision-free identifier for a wanted name and records it as in use.
    Among the first [size used + 1] spellings one is free, so the search is
    given that many steps. *)
Definition getDistinctName (name : string) (kind : NameType) (db : Names)
  : string * Names :=
  let fresh := firstFree (taken db) name 0 (size (taken db)) in
  (fresh, {| reservedDict_ := reservedDict_ db;
             dbReverse_ := {[fresh]} ∪ dbReverse_ db |}).

(** Modelled from the spec: [Names.reset], which empties the table at the
    end of a run and keeps the reserved words. *)
Definition Names_reset (db : Names) : Names :=
  {| reservedDict_ := reservedDict_ db; dbReverse_ := ∅ |}.

(** ** The generator object and its mutable state *)

Record Generator := mkGenerator {
  (** [definitions_]: keys in insertion order *)
  definitions_ : list (string * string);
  functionNames_ : gmap string string;
  nameDB_ : Names;
  isInitialized : bool;
}.

(** [dict[key] = value] on an insertion-ordered dictionary. *)
Fixpoint dict_set (key value : string) (dict : list (string * string))
  : list (string * string) :=
  match dict with
  | [] => [(key, value)]
  | (k, v) :: dict' =>
      if decide (k = key) then (k, value) :: dict'
      else (k, v) :: dict_set key value dict'
  end.

(** How a call ends: with a value and the generator's new state, or with a
    thrown error. *)
Inductive Completion (A : Type) :=
  | Normal (a : A) (g : Generator)
  | Throw (e : JsError).
Arguments Normal {A} a g.
Arguments Throw {A} e.

Definition M (A : Type) : Type := Generator -> Completion A.

#[global] Instance M_ret : MRet M := fun A a g => Normal a g.
#[global] Instance M_bind : MBind M := fun A B f m g =>
  match m g with
  | Normal a g' => f a g'
  | Throw e => Throw e
  end.

Definition throw {A} (e : JsError) : M A := fun _ => Throw e.

(** [CPP.definitions_[key] = value] *)
Definition set_definition (key value : string) : M unit := fun g =>
  Normal tt {| definitions_ := dict_set key value (definitions_ g);
               functionNames_ := functionNames_ g;
               nameDB_ := nameDB_ g;
               isInitialized := isInitialized g |}.

(** [CPP.nameDB_.getDistinctName(name, kind)] *)
Definition nameDB_getDistinctName (name : string) (kind : NameType) : M string :=
  fun g =>
    let '(fresh, db) := getDistinctName name kind (nameDB_ g) in
    Normal fresh {| definitions_ := definitions_ g;
                    functionNames_ := functionNames_ g;
                    nameDB_ := db;
                    isInitialized := isInitialized g |}.

(** What a per-block rule returns: the tuple [[code, order]] of a value
    block, the text of a statement block, or [undefined]. *)
Inductive Emitted :=
  | Tuple (code : string) (order : Q)
  | Statement (code : string)
  | Undefined.

(** ** What the rules inherit from [Blockly.Generator] and from the
    JavaScript runtime

    [core/generator.js] is not among the sources.  The members below are
    used by the rules as black boxes, so they are parameters of the
    development; the members whose behaviour the specification fixes
    ([valueToCode], [statementToCode], [provideFunction_]) are defined
    further down. *)

Class Inherited := {
  INDENT : string;
  STATEMENT_PREFIX : option string;
  STATEMENT_SUFFIX : option string;
  (** [Generator.prototype.prefixLines(text, prefix)] *)
  prefixLines : string -> string -> string;
  (** [Generator.prototype.injectId(msg, block)] *)
  injectId : string -> Block -> string;
  (** [Generator.prototype.addLoopTrap(branch, block)] *)
  addLoopTrap : string -> Block -> string;
  (** [Generator.prototype.finish(code)] *)
  Generator_finish : string -> string;
  (** [String(Number(text))], a floating-point conversion *)
  String_Number : string -> string;
  (** what the identifier [constant] resolves to in the global scope, if the
      host page defines it *)
  global_constant : option string;
}.

(** Truth value of a configuration string: [null] and the empty string are
    falsy. *)
Definition truthy (o : option string) : bool :=
  match o with
  | Some (String _ _) => true
  | _ => false
  end.

Definition text_of (o : option string) : string := default EmptyString o.

(** Modelled from the spec: [Generator.valueToCode] ([emitValue]).  The code
    of the block connected to the input is returned unchanged if its order
    is at most the required one, in parentheses otherwise.  With nothing
    connected the result is the empty string, which every caller replaces by
    its default literal with [||]. *)
Definition valueToCode (block : Block) (name : string) (outerOrder : Q) : string :=
  match valueInputs block !! name with
  | Some (Some (code, innerOrder)) =>
      if Qle_bool innerOrder outerOrder then code
      else "(" +:+ code +:+ ")"
  | _ => EmptyString
  end.

(** Modelled from the spec: [Generator.statementToCode] ([emitStatements]):
    the text of the chain connected to the input, or the empty string. *)
Definition statementToCode (block : Block) (name : string) : string :=
  match statementInputs block !! name with
  | Some (Some code) => code
  | _ => EmptyString
  end.

(** Modelled from the spec: [Generator.provideFunction_]
    ([defineHelperFunction]), memoised by key.  The first call for a key
    chooses a fresh name, registers the template with the name in place of
    the placeholder and returns the name; later calls return the same name
    and register nothing.  A template is a function of the name that
    replaces [FUNCTION_NAME_PLACEHOLDER_]. *)
Definition provideFunction_ (desiredName : string) (template : string -> string)
  : M string := fun g =>
  match functionNames_ g !! desiredName with
  | Some functionName => Normal functionName g
  | None =>
      let '(functionName, db) :=
        getDistinctName desiredName PROCEDURE (nameDB_ g) in
      Normal functionName
        {| definitions_ := dict_set desiredName (template functionName) (definitions_ g);
           functionNames_ := <[desiredName := functionName]> (functionNames_ g);
           nameDB_ := db;
           isInitialized := isInitialized g |}
  end.

(** Modelled from the spec: [Blockly.utils.string.isNumber]
    ([core/utils/string.js] is not among the sources), the test for a
    literal number: an optional minus sign, digits, and optionally a point
    followed by digits. *)
Definition isNumber (s : string) : bool :=
  let s := match s with String "-" s' => s' | _ => s end in
  let '(_, count, rest) := Js.read_digits 0 0 s in
  match count with
  | O => false
  | _ =>
      match rest with
      | EmptyString => true
      | String "." frac =>
          match frac with
          | EmptyString => false
          | _ => Js.all_chars Js.is_digit frac
          end
      | _ => false
      end
  end.

(** ** [generators/cpp.js] *)

Module CPP.
Section CPP.
Context `{Inherited}.

(** [opt_delta || 0], decremented under one-based indexing (lines 250 to
    254). *)
Definition adjustedDelta (block : Block) (opt_delta : option Z) : Z :=
  let delta := default 0 opt_delta in
  if oneBasedIndex block then delta - 1 else delta.

(** [opt_order || this.ORDER_NONE] (line 251): no order and the order 0 are
    both falsy. *)
Definition requiredOrder (opt_order : option Q) : Q :=
  match opt_order with
  | Some o => if Qeq_bool o 0 then ORDER_NONE else o
  | None => ORDER_NONE
  end.

Definition defaultAtIndex (block : Block) : string :=
  if oneBasedIndex block then "1" else "0".

(** The orders chosen at lines 258 to 268: [outerOrder], required of the
    index expression, and [innerOrder], the order of the adjusted text
    ([None] for a variable left [undefined]). *)
Definition adjustedOrders (delta : Z) (opt_negate : bool) (order : Q)
  : Q * option Q :=
  if negb (delta =? 0) then (ORDER_ADDITIVE, Some ORDER_ADDITIVE)
  else if opt_negate then (ORDER_UNARY_PREFIX, Some ORDER_UNARY_PREFIX)
  else (order, None).

(** The adjustment of a dynamic index in code (lines 281 to 292). *)
Definition adjustInCode (at_ : string) (delta : Z) (opt_negate : bool) : string :=
  let at_ :=
    if 0 <? delta then at_ +:+ " + " +:+ Js.String_of_Z delta
    else if delta <? 0 then at_ +:+ " - " +:+ Js.String_of_Z (- delta)
    else at_ in
  if opt_negate then
    if negb (delta =? 0) then "-(" +:+ at_ +:+ ")" else "-" +:+ at_
  else at_.

(** [innerOrder && order >= innerOrder] after both went through
    [Math.floor] (lines 293 to 295); the floor of [undefined] is [NaN],
    which is falsy. *)
Definition needsParens (innerOrder : option Q) (order : Q) : bool :=
  match innerOrder with
  | Some inner =>
      negb (Qfloor inner =? 0) && (Qfloor inner <=? Qfloor order)
  | None => false
  end.

Definition getAdjusted (block : Block) (atId : string) (opt_delta : option Z)
    (opt_negate : bool) (opt_order : option Q) : StrOrNum :=
  let delta := adjustedDelta block opt_delta in
  let order := requiredOrder opt_order in
  let '(outerOrder, innerOrder) := adjustedOrders delta opt_negate order in
  let at_ := Js.or_else (valueToCode block atId outerOrder) (defaultAtIndex block) in
  if isNumber at_ then
    (* If the index is a naked number, adjust it right now. *)
    match Js.parseInt at_ with
    | Some n =>
        let at_ := n + delta in
        JNum (if opt_negate then - at_ else at_)
    | None => JNaN
    end
  else
    (* If the index is dynamic, adjust it in code. *)
    let at_ := adjustInCode at_ delta opt_negate in
    JStr (if needsParens innerOrder order then "(" +:+ at_ +:+ ")" else at_).

(** [def.match(/^import\s/)] as a truth value. *)
Definition is_import (def : string) : bool :=
  Js.starts_with "import" def &&
  match String.get 6 def with
  | Some c => Js.is_space c
  | None => false
  end.

(** The entry point that [CPP.finish] builds around the generated code
    (lines 130 to 134). *)
Definition main_wrapping (code : string) : string :=
  (* Indent every line. *)
  let code :=
    match code with
    | EmptyString => code
    | _ => prefixLines code INDENT
    end in
  "int main() {" +:+ Js.NL +:+ code +:+ INDENT +:+ "return 0;" +:+ Js.NL +:+ "}".

(** [CPP.finish] *)
Definition finish (code : string) : M string := fun g =>
  let code := main_wrapping code in
  (* Convert the definitions dictionary into a list. *)
  let imports := filter (fun def => is_import def = true) (snd <$> definitions_ g) in
  let definitions := filter (fun def => is_import def = false) (snd <$> definitions_ g) in
  (* Call Blockly.Generator's finish. *)
  let code := Generator_finish code in
  let allDefs :=
    Js.join Js.NL imports +:+ Js.NL +:+ Js.NL +:+ Js.join (Js.NL +:+ Js.NL) definitions in
  Normal code {| definitions_ := definitions_ g;
                 functionNames_ := functionNames_ g;
                 nameDB_ := Names_reset (nameDB_ g);
                 isInitialized := false |}.

End CPP.
End CPP.

(** [block.getFieldValue(name) || dflt] *)
Definition field_or (block : Block) (name dflt : string) : string :=
  Js.or_else (text_of (getFieldValue block name)) dflt.

(** [block.getFieldValue(name) === text] *)
Definition field_is (block : Block) (name text : string) : bool :=
  bool_decide (getFieldValue block name = Some text).

(** The text of [null] and of a string under [+]. *)
Definition show (o : option string) : string := default "null" o.

(** ** [generators/cpp/logic.js] *)

Module Logic.
Section Logic.
Context `{Inherited}.

(** One pass through the body of the [do ... while] loop of
    [controls_if] appends the clause for [IF n] / [DO n]. *)
Definition controls_if_clause (block : Block) (n : nat) (code : string) : string :=
  let conditionCode :=
    Js.or_else (valueToCode block ("IF" +:+ pretty n) ORDER_NONE) "false" in
  let branchCode := statementToCode block ("DO" +:+ pretty n) in
  let branchCode :=
    if truthy STATEMENT_SUFFIX
    then prefixLines (injectId (text_of STATEMENT_SUFFIX) block) INDENT +:+ branchCode
    else branchCode in
  code +:+ (if (0 <? n)%nat then "else " else EmptyString) +:+
    "if (" +:+ conditionCode +:+ ") {" +:+ Js.NL +:+ branchCode +:+ "}".

(** The loop [do { ... n++ } while (block.getInput('IF' + n))].  Each
    further pass needs one more input of the block, so the number of inputs
    bounds the number of further passes. *)
Fixpoint controls_if_loop (block : Block) (fuel n : nat) (code : string) : string :=
  let code := controls_if_clause block n code in
  match fuel with
  | S fuel' =>
      if getInput block ("IF" +:+ pretty (S n))
      then controls_if_loop block fuel' (S n) code
      else code
  | O => code
  end.

(** The names IF1, IF2, ... of the inputs that make the loop go on. *)
Definition if_name (j : nat) : string := "IF" +:+ pretty (S j).

Definition inputCount (block : Block) : nat :=
  size (valueInputs block) + size (statementInputs block).

Definition controls_if (block : Block) : M Emitted :=
  (* If/elseif/else condition. *)
  let code :=
    if truthy STATEMENT_PREFIX
    then injectId (text_of STATEMENT_PREFIX) block
    else EmptyString in
  let code := controls_if_loop block (inputCount block) 0 code in
  let code :=
    if getInput block "ELSE" || truthy STATEMENT_SUFFIX then
      let branchCode := statementToCode block "ELSE" in
      let branchCode :=
        if truthy STATEMENT_SUFFIX
        then prefixLines (injectId (text_of STATEMENT_SUFFIX) block) INDENT +:+ branchCode
        else branchCode in
      code +:+ " else {" +:+ Js.NL +:+ branchCode +:+ "}"
    else code in
  mret (Statement (code +:+ Js.NL)).

Definition logic_operation (block : Block) : M Emitted :=
  (* Operations 'and', 'or'. *)
  let operator := if field_is block "OP" "AND" then "&&" else "||" in
  let order :=
    if String.eqb operator "&&" then ORDER_LOGICAL_AND else ORDER_LOGICAL_OR in
  let argument0 := valueToCode block "A" order in
  let argument1 := valueToCode block "B" order in
  let '(argument0, argument1) :=
    match argument0, argument1 with
    | EmptyString, EmptyString =>
        (* If there are no arguments, then the return value is false. *)
        ("false", "false")
    | _, _ =>
        (* Single missing arguments have no effect on the return value. *)
        let defaultArgument := if String.eqb operator "&&" then "true" else "false" in
        (Js.or_else argument0 defaultArgument, Js.or_else argument1 defaultArgument)
    end in
  let code := argument0 +:+ " " +:+ operator +:+ " " +:+ argument1 in
  mret (Tuple code order).

End Logic.
End Logic.

(** ** The loop rules (the file of [Blockly.CPP.loops]) *)

Module Loops.
Section Loops.
Context `{Inherited}.

(** The loop statement built at lines 38 and 39. *)
Definition for_loop (loopVar endVar branch : string) : string :=
  "for (int " +:+ loopVar +:+ " = 0; " +:+ loopVar +:+ " < " +:+ endVar +:+ "; " +:+
  loopVar +:+ "++) {" +:+ Js.NL +:+ branch +:+ "}" +:+ Js.NL.

Definition controls_repeat_ext (block : Block) : M Emitted :=
  (* Repeat n times. *)
  let repeats :=
    if getField block "TIMES" then
      (* Internal number. *)
      String_Number (text_of (getFieldValue block "TIMES"))
    else
      (* External number. *)
      Js.or_else (valueToCode block "TIMES" ORDER_ASSIGNMENT) "0" in
  let branch := statementToCode block "DO" in
  let branch := addLoopTrap branch block in
  loopVar ← nameDB_getDistinctName "count" VARIABLE;
  '(endVar, code) ←
    (if negb (Js.is_word repeats) && negb (isNumber repeats) then
       endVar ← nameDB_getDistinctName "repeat_end" VARIABLE;
       mret (endVar, "var " +:+ endVar +:+ " = " +:+ repeats +:+ ";" +:+ Js.NL)
     else mret (repeats, EmptyString));
  mret (Statement (code +:+ for_loop loopVar endVar branch)).

Definition controls_flow_statements (block : Block) : M Emitted :=
  (* Flow statements: continue, break. *)
  let xfix :=
    if truthy STATEMENT_PREFIX
    then injectId (text_of STATEMENT_PREFIX) block
    else EmptyString in
  let xfix :=
    if truthy STATEMENT_SUFFIX
    then xfix +:+ injectId (text_of STATEMENT_SUFFIX) block
    else xfix in
  let xfix :=
    if truthy STATEMENT_PREFIX then
      match getSurroundLoop block with
      | Some loop =>
          if negb (suppressPrefixSuffix loop)
          then xfix +:+ injectId (text_of STATEMENT_PREFIX) loop
          else xfix
      | None => xfix
      end
    else xfix in
  if field_is block "FLOW" "BREAK" then
    mret (Statement (xfix +:+ "break;" +:+ Js.NL))
  else if field_is block "FLOW" "CONTINUE" then
    mret (Statement (xfix +:+ "continue;" +:+ Js.NL))
  else throw (Error "Unknown flow statement.").

End Loops.
End Loops.

(** ** The math rules (the file of [Blockly.CPP.math] that emits C++) *)

Module Math.
Section Math.
Context `{Inherited}.

Definition include_cmath : M unit :=
  set_definition "include_cpp_cmath" "#include <cmath>".

(** The table [OPERATORS] of [math_arithmetic]; an operator of [None] is
    [null]. *)
Definition OPERATORS : gmap string (option string * Q) :=
  {[ "ADD" := (Some " + ", ORDER_ADDITIVE);
     "MINUS" := (Some " - ", ORDER_ADDITIVE);
     "MULTIPLY" := (Some " * ", ORDER_MULTIPLICATIVE);
     "DIVIDE" := (Some " / ", ORDER_MULTIPLICATIVE);
     "POWER" := (None, ORDER_NONE) ]}.  (* Handle power separately. *)

Definition math_arithmetic (block : Block) : M Emitted :=
  (* Basic arithmetic operators, and power. *)
  match OPERATORS !! show (getFieldValue block "OP") with
  | None => throw (TypeError "Cannot read properties of undefined (reading '0')")
  | Some (operator, order) =>
      let argument0 := Js.or_else (valueToCode block "A" order) "0" in
      let argument1 := Js.or_else (valueToCode block "B" order) "0" in
      match operator with
      | None =>
          (* Power in CPP requires a special case since it has no operator. *)
          include_cmath;;
          mret (Tuple ("pow(" +:+ argument0 +:+ ", " +:+ argument1 +:+ ")")
                      ORDER_UNARY_POSTFIX)
      | Some operator =>
          mret (Tuple (argument0 +:+ operator +:+ argument1) order)
      end
  end.

(** The first [switch] of [math_single]: the operators whose code needs no
    parentheses.  [None] is a [code] left [undefined]. *)
Definition math_single_call (operator arg : string) : option string :=
  if String.eqb operator "ABS" then Some ("abs(" +:+ arg +:+ ")")
  else if String.eqb operator "ROOT" then Some ("sqrt(" +:+ arg +:+ ")")
  else if String.eqb operator "LN" then Some ("log(" +:+ arg +:+ ")")
  else if String.eqb operator "EXP" then Some ("exp(" +:+ arg +:+ ")")
  else if String.eqb operator "POW10" then Some ("pow(10, " +:+ arg +:+ ")")
  else if String.eqb operator "ROUND" then Some ("round(" +:+ arg +:+ ")")
  else if String.eqb operator "ROUNDUP" then Some ("ceil(" +:+ arg +:+ ")")
  else if String.eqb operator "ROUNDDOWN" then Some ("floor(" +:+ arg +:+ ")")
  else if String.eqb operator "SIN" then Some ("sin(" +:+ arg +:+ " / 180 * M_PI)")
  else if String.eqb operator "COS" then Some ("cos(" +:+ arg +:+ " / 180 * M_PI)")
  else if String.eqb operator "TAN" then Some ("tan(" +:+ arg +:+ " / 180 * M_PI)")
  else None.

(** The second [switch]: the operators whose code may need parentheses;
    [None] is its [default] case. *)
Definition math_single_quotient (operator arg : string) : option string :=
  if String.eqb operator "LOG10" then Some ("log(" +:+ arg +:+ ") / log(10)")
  else if String.eqb operator "ASIN" then Some ("asin(" +:+ arg +:+ ") / M_PI * 180")
  else if String.eqb operator "ACOS" then Some ("acos(" +:+ arg +:+ ") / M_PI * 180")
  else if String.eqb operator "ATAN" then Some ("atan(" +:+ arg +:+ ") / M_PI * 180")
  else None.


Definition math_single (block : Block) : M Emitted :=
  (* Math operators with single operand. *)
  let operator := getFieldValue block "OP" in
  if bool_decide (operator = Some "NEG") then
    (* Negation is a special case given its different operator precedence. *)
    let arg := Js.or_else (valueToCode block "NUM" ORDER_UNARY_PREFIX) "0" in
    let arg :=
      match arg with
      | String "-" _ => " " +:+ arg  (* --3 is not legal in CPP. *)
      | _ => arg
      end in
    mret (Tuple ("-" +:+ arg) ORDER_UNARY_PREFIX)
  else
    include_cmath;;
    let arg :=
      if bool_decide (operator = Some "SIN") || bool_decide (operator = Some "COS")
         || bool_decide (operator = Some "TAN")
      then Js.or_else (valueToCode block "NUM" ORDER_MULTIPLICATIVE) "0"
      else Js.or_else (valueToCode block "NUM" ORDER_NONE) "0" in
    match operator ≫= (fun op => math_single_call op arg) with
    | Some code => mret (Tuple code ORDER_UNARY_POSTFIX)
    | None =>
        match operator ≫= (fun op => math_single_quotient op arg) with
        | Some code => mret (Tuple code ORDER_MULTIPLICATIVE)
        | None => throw (Error ("Unknown math operator: " +:+ show operator))
        end
    end.

(** The table [CONSTANTS] of [math_constant]. *)
Definition CONSTANTS : gmap string (string * Q) :=
  {[ "PI" := ("M_PI", ORDER_ATOMIC);
     "E" := ("M_E", ORDER_ATOMIC);
     "GOLDEN_RATIO" := ("(1 + sqrt(5)) / 2", ORDER_MULTIPLICATIVE);
     "SQRT2" := ("M_SQRT2", ORDER_ATOMIC);
     "SQRT1_2" := ("M_SQRT1_2", ORDER_ATOMIC);
     "INFINITY" := ("INFINITY", ORDER_ATOMIC) ]}.

(** What a rule returns when it returns an entry of a table of tuples. *)
Definition tuple_or_undefined (entry : option (string * Q)) : Emitted :=
  match entry with
  | Some (code, order) => Tuple code order
  | None => Undefined
  end.

(** [math_constant].  The function declares no [constant] and neither does
    its module, so the identifier in [CONSTANTS[constant]] is looked up in
    the global scope: a [ReferenceError] unless the host defines it.  The
    block's CONSTANT field is not read. *)
Definition math_constant (block : Block) : M Emitted :=
  (* Constants: PI, E, the Golden Ratio, sqrt(2), 1/sqrt(2), INFINITY. *)
  include_cmath;;
  match global_constant with
  | Some constant => mret (tuple_or_undefined (CONSTANTS !! constant))
  | None => throw (ReferenceError "constant is not defined")
  end.

End Math.
End Math.

(** ** The list rules (the file of [Blockly.CPP.lists]) *)

Module Lists.
Section Lists.
Context `{Inherited}.

Definition lists_get_from_end_template (name : string) : string :=
  Js.NL +:+ "dynamic " +:+ name +:+ "(List my_list, num x) {" +:+ Js.NL +:+
  "  x = my_list.length - x;" +:+ Js.NL +:+
  "  return my_list[x];" +:+ Js.NL +:+ "}" +:+ Js.NL.

Definition lists_remove_from_end_template (name : string) : string :=
  Js.NL +:+ "dynamic " +:+ name +:+ "(List my_list, num x) {" +:+ Js.NL +:+
  "  x = my_list.length - x;" +:+ Js.NL +:+
  "  return my_list.removeAt(x);" +:+ Js.NL +:+ "}" +:+ Js.NL.

Definition lists_get_random_item_template (name : string) : string :=
  Js.NL +:+ "dynamic " +:+ name +:+ "(List my_list) {" +:+ Js.NL +:+
  "  int x = new Math.Random().nextInt(my_list.length);" +:+ Js.NL +:+
  "  return my_list[x];" +:+ Js.NL +:+ "}" +:+ Js.NL.

Definition lists_remove_random_item_template (name : string) : string :=
  Js.NL +:+ "dynamic " +:+ name +:+ "(List my_list) {" +:+ Js.NL +:+
  "  int x = new Math.Random().nextInt(my_list.length);" +:+ Js.NL +:+
  "  return my_list.removeAt(x);" +:+ Js.NL +:+ "}" +:+ Js.NL.

Definition import_dart_math : M unit :=
  set_definition "import_dart_math" "import 'dart:math' as Math;".

(** The closure [cacheList] of [lists_getIndex]: it returns the statement
    that binds the list to a new variable, and [list] becomes that
    variable. *)
Definition cacheList (list : string) : M (string * string) :=
  listVar ← nameDB_getDistinctName "tmp_list" VARIABLE;
  let code := "List " +:+ listVar +:+ " = " +:+ list +:+ ";" +:+ Js.NL in
  mret (code, listVar).

Definition unhandled : M Emitted :=
  throw (Error "Unhandled combination (lists_getIndex).").

(** The values of MODE and of WHERE that have a case in [lists_getIndex]. *)
Definition handled_modes : list string := ["GET"; "GET_REMOVE"; "REMOVE"].
Definition handled_wheres : list string :=
  ["FIRST"; "LAST"; "FROM_START"; "FROM_END"; "RANDOM"].

Definition lists_getIndex (block : Block) : M Emitted :=
  (* Get element at index. *)
  let mode := field_or block "MODE" "GET" in
  let where_ := field_or block "WHERE" "FROM_START" in
  let listOrder :=
    if String.eqb where_ "RANDOM" || String.eqb where_ "FROM_END"
    then ORDER_NONE else ORDER_UNARY_POSTFIX in
  let list := Js.or_else (valueToCode block "VALUE" listOrder) "[]" in
  if ((String.eqb where_ "RANDOM" && String.eqb mode "REMOVE")
      || String.eqb where_ "FROM_END") && negb (Js.is_word list) then
    (* `list` is an expression, so we may not evaluate it more than once. *)
    if String.eqb where_ "RANDOM" then
      import_dart_math;;
      (* We can use multiple statements. *)
      '(code, list) ← cacheList list;
      xVar ← nameDB_getDistinctName "tmp_x" VARIABLE;
      let code := code +:+ "int " +:+ xVar +:+ " = new Math.Random().nextInt(" +:+
                  list +:+ ".length);" +:+ Js.NL in
      let code := code +:+ list +:+ ".removeAt(" +:+ xVar +:+ ");" +:+ Js.NL in
      mret (Statement code)
    else (* where === 'FROM_END' *)
      if String.eqb mode "REMOVE" then
        (* We can use multiple statements. *)
        let at_ := CPP.getAdjusted block "AT" (Some 1) false (Some ORDER_ADDITIVE) in
        '(code, list) ← cacheList list;
        let code := code +:+ list +:+ ".removeAt(" +:+ list +:+ ".length" +:+
                    " - " +:+ toStr at_ +:+ ");" +:+ Js.NL in
        mret (Statement code)
      else if String.eqb mode "GET" then
        let at_ := CPP.getAdjusted block "AT" (Some 1) false None in
        (* We need to create a procedure to avoid reevaluating values. *)
        functionName ← provideFunction_ "lists_get_from_end" lists_get_from_end_template;
        let code := functionName +:+ "(" +:+ list +:+ ", " +:+ toStr at_ +:+ ")" in
        mret (Tuple code ORDER_UNARY_POSTFIX)
      else if String.eqb mode "GET_REMOVE" then
        let at_ := CPP.getAdjusted block "AT" (Some 1) false None in
        (* We need to create a procedure to avoid reevaluating values. *)
        functionName ← provideFunction_ "lists_remove_from_end" lists_remove_from_end_template;
        let code := functionName +:+ "(" +:+ list +:+ ", " +:+ toStr at_ +:+ ")" in
        mret (Tuple code ORDER_UNARY_POSTFIX)
      else unhandled
  else
    (* Either `list` is a simple variable, or we only need to refer to `list`
       once. *)
    if String.eqb where_ "FIRST" then
        if String.eqb mode "GET" then
          mret (Tuple (list +:+ ".first") ORDER_UNARY_POSTFIX)
        else if String.eqb mode "GET_REMOVE" then
          mret (Tuple (list +:+ ".removeAt(0)") ORDER_UNARY_POSTFIX)
        else if String.eqb mode "REMOVE" then
          mret (Statement (list +:+ ".removeAt(0);" +:+ Js.NL))
        else unhandled
    else if String.eqb where_ "LAST" then
        if String.eqb mode "GET" then
          mret (Tuple (list +:+ ".last") ORDER_UNARY_POSTFIX)
        else if String.eqb mode "GET_REMOVE" then
          mret (Tuple (list +:+ ".removeLast()") ORDER_UNARY_POSTFIX)
        else if String.eqb mode "REMOVE" then
          mret (Statement (list +:+ ".removeLast();" +:+ Js.NL))
        else unhandled
    else if String.eqb where_ "FROM_START" then
        let at_ := toStr (CPP.getAdjusted block "AT" None false None) in
        if String.eqb mode "GET" then
          mret (Tuple (list +:+ "[" +:+ at_ +:+ "]") ORDER_UNARY_POSTFIX)
        else if String.eqb mode "GET_REMOVE" then
          mret (Tuple (list +:+ ".removeAt(" +:+ at_ +:+ ")") ORDER_UNARY_POSTFIX)
        else if String.eqb mode "REMOVE" then
          mret (Statement (list +:+ ".removeAt(" +:+ at_ +:+ ");" +:+ Js.NL))
        else unhandled
    else if String.eqb where_ "FROM_END" then
        let at_ :=
          toStr (CPP.getAdjusted block "AT" (Some 1) false (Some ORDER_ADDITIVE)) in
        if String.eqb mode "GET" then
          mret (Tuple (list +:+ "[" +:+ list +:+ ".length - " +:+ at_ +:+ "]")
                      ORDER_UNARY_POSTFIX)
        else if String.eqb mode "GET_REMOVE" || String.eqb mode "REMOVE" then
          let code := list +:+ ".removeAt(" +:+ list +:+ ".length - " +:+ at_ +:+ ")" in
          if String.eqb mode "GET_REMOVE" then
            mret (Tuple code ORDER_UNARY_POSTFIX)
          else mret (Statement (code +:+ ";" +:+ Js.NL))
        else unhandled
    else if String.eqb where_ "RANDOM" then
        import_dart_math;;
        if String.eqb mode "REMOVE" then
          (* We can use multiple statements. *)
          xVar ← nameDB_getDistinctName "tmp_x" VARIABLE;
          let code := "int " +:+ xVar +:+ " = new Math.Random().nextInt(" +:+ list +:+
                      ".length);" +:+ Js.NL in
          let code := code +:+ list +:+ ".removeAt(" +:+ xVar +:+ ");" +:+ Js.NL in
          mret (Statement code)
        else if String.eqb mode "GET" then
          functionName ← provideFunction_ "lists_get_random_item"
                           lists_get_random_item_template;
          mret (Tuple (functionName +:+ "(" +:+ list +:+ ")") ORDER_UNARY_POSTFIX)
        else if String.eqb mode "GET_REMOVE" then
          functionName ← provideFunction_ "lists_remove_random_item"
                           lists_remove_random_item_template;
          mret (Tuple (functionName +:+ "(" +:+ list +:+ ")") ORDER_UNARY_POSTFIX)
        else unhandled
    else unhandled.

End Lists.
End Lists.

(** ** [generators/cpp.js]: multi-line texts, naked values *)

Module CPP_lines.
Import Js.

(** [string.split(/\n/g)]: the pieces between the line feeds; a text
    without a line feed is its only piece. *)
Fixpoint split_lines (s : string) : list string :=
  match s with
  | EmptyString => [EmptyString]
  | String c s' =>
      if Ascii.eqb c LF then EmptyString :: split_lines s'
      else
        match split_lines s' with
        | piece :: pieces => String c piece :: pieces
        | [] => [String c EmptyString]
        end
  end.

(** The text that joins the quoted lines: [ + "\n" + ] and a line feed (the
    JavaScript literal [' + "\\n" + \n']). *)
Definition line_separator : string :=
  " + " +:+ str DQUOTE +:+ "\n" +:+ str DQUOTE +:+ " + " +:+ NL.

(** The constant [lines] of [CPP.multiline_quote_]. *)
Definition quoted_lines (s : string) : list string :=
  CPP_quote.quote_ <$> split_lines s.

(** [CPP.multiline_quote_] *)
Definition multiline_quote_ (s : string) : string :=
  join line_separator (quoted_lines s).

(** The text has no occurrence of the character. *)
Definition lacks (c : ascii) (s : string) : bool :=
  all_chars (fun a => negb (Ascii.eqb a c)) s.

(** [CPP.scrubNakedValue] *)
Definition scrubNakedValue (line : string) : string :=
  line +:+ ";" +:+ NL.

End CPP_lines.

(** ** [generators/cpp/text.js] *)

Module Texts.
Section Texts.
Context `{Inherited}.

(** [CPP.quote_(block.getFieldValue(name))]: a field that is [null] has no
    [replace] method. *)
Definition quote_field (quote : string -> string) (block : Block) (name : string)
  : M string :=
  match getFieldValue block name with
  | Some text => mret (quote text)
  | None => throw (TypeError "Cannot read properties of null (reading 'replace')")
  end.

Definition text (block : Block) : M Emitted :=
  (* Text value. *)
  code ← quote_field CPP_quote.quote_ block "TEXT";
  mret (Tuple code ORDER_ATOMIC).

Definition text_multiline (block : Block) : M Emitted :=
  (* Text value. *)
  match getFieldValue block "TEXT" with
  | Some text =>
      let code := CPP_lines.multiline_quote_ text in
      let order := if Js.includes "+" code then ORDER_ADDITIVE else ORDER_ATOMIC in
      mret (Tuple code order)
  | None => throw (TypeError "Cannot read properties of null (reading 'split')")
  end.

End Texts.
End Texts.

(** ** More of the math rules *)

(** A text given line by line, each line ended by a line feed. *)
Fixpoint unlines (lines : list string) : string :=
  match lines with
  | [] => EmptyString
  | line :: lines' => line +:+ Js.NL +:+ unlines lines'
  end.

Module MathRules.
Section MathRules.
Context `{Inherited}.

(** The table [PROPERTIES] of [math_number_property]: suffix ([None] is
    [null]), input order, output order. *)
Definition PROPERTIES : gmap string (option string * Q * Q) :=
  {[ "EVEN" := (Some " % 2 == 0", ORDER_MULTIPLICATIVE, ORDER_EQUALITY);
     "ODD" := (Some " % 2 == 1", ORDER_MULTIPLICATIVE, ORDER_EQUALITY);
     "WHOLE" := (Some " % 1 == 0", ORDER_MULTIPLICATIVE, ORDER_EQUALITY);
     "POSITIVE" := (Some " > 0", ORDER_RELATIONAL, ORDER_RELATIONAL);
     "NEGATIVE" := (Some " < 0", ORDER_RELATIONAL, ORDER_RELATIONAL);
     "DIVISIBLE_BY" := (None, ORDER_MULTIPLICATIVE, ORDER_EQUALITY);
     "PRIME" := (None, ORDER_NONE, ORDER_UNARY_POSTFIX) ]}.

Definition math_isPrime_template (name : string) : string :=
  Js.NL +:+ unlines [
    "bool " +:+ name +:+ "(int n) {";
    "  // https://en.wikipedia.org/wiki/Primality_test#Naive_methods";
    "  if (n == 2 || n == 3) {";
    "    return true;";
    "  }";
    "  // False if n is negative, is 1, or not whole.";
    "  // And false if n is divisible by 2 or 3.";
    "  if (n <= 1 || n % 1 != 0 || n % 2 == 0 || n % 3 == 0) {";
    "    return false;";
    "  }";
    "  // Check all the numbers of form 6k +/- 1, up to sqrt(n).";
    "  for (int x = 6; x <= sqrt(n) + 1; x += 6) {";
    "    if (n % (x - 1) == 0 || n % (x + 1) == 0) {";
    "      return false;";
    "    }";
    "  }";
    "  return true;";
    "}" ].

Definition math_number_property (block : Block) : M Emitted :=
  (* Check if a number is even, odd, prime, whole, positive, or negative
     or if it is divisible by certain number. Returns true or false. *)
  let dropdownProperty := getFieldValue block "PROPERTY" in
  match PROPERTIES !! show dropdownProperty with
  | None => throw (TypeError "undefined is not iterable")
  | Some (suffix, inputOrder, outputOrder) =>
      let numberToCheck :=
        Js.or_else (valueToCode block "NUMBER_TO_CHECK" inputOrder) "0" in
      if bool_decide (dropdownProperty = Some "PRIME") then
        (* Prime is a special case as it is not a one-liner test. *)
        Math.include_cmath;;
        functionName ← provideFunction_ "math_isPrime" math_isPrime_template;
        mret (Tuple (functionName +:+ "(" +:+ numberToCheck +:+ ")") outputOrder)
      else if bool_decide (dropdownProperty = Some "DIVISIBLE_BY") then
        let divisor :=
          Js.or_else (valueToCode block "DIVISOR" ORDER_MULTIPLICATIVE) "0" in
        if String.eqb divisor "0" then mret (Tuple "false" ORDER_ATOMIC)
        else mret (Tuple (numberToCheck +:+ " % " +:+ divisor +:+ " == 0") outputOrder)
      else mret (Tuple (numberToCheck +:+ show suffix) outputOrder)
  end.

Definition math_sum_template (name : string) : string :=
  Js.NL +:+ unlines [
    "int " +:+ name +:+ "(list<int> myList) {";
    "  return accumulate(begin(myList), end(myList), 0);";
    "}" ].

Definition math_min_template (name : string) : string :=
  Js.NL +:+ unlines [
    "int " +:+ name +:+ "(list<int> mylist) {";
    "  int min=0;";
    "  for (list<double>::iterator it=mylist.begin(); it != mylist.end(); ++it){";
    "    if (min >= *it)";
    "      min = *it;";
    "  }";
    "  return min;";
    "}" ].

Definition math_max_template (name : string) : string :=
  Js.NL +:+ unlines [
    "int " +:+ name +:+ "(list<int> mylist) {";
    "  int max=0;";
    "  for (list<double>::iterator it=mylist.begin(); it != mylist.end(); ++it){";
    "    if (max <= *it)";
    "      max = *it;";
    "  }";
    "  return max;";
    "}" ].

Definition math_mean_template (name : string) : string :=
  Js.NL +:+ unlines [
    "int " +:+ name +:+ "(list<int> myList) {";
    "  return accumulate(begin(myList), end(myList), 0) / myList.size();";
    "}" ].

Definition include_numeric : M unit :=
  set_definition "include_cpp_numeric" "#include <numeric>".

(** The functions that [math_on_list] has code for. *)
Definition handled_functions : list string := ["SUM"; "MIN"; "MAX"; "AVERAGE"].

Definition math_on_list (block : Block) : M Emitted :=
  (* Math functions for lists. *)
  let func := getFieldValue block "OP" in
  let list := Js.or_else (valueToCode block "LIST" ORDER_NONE) "[]" in
  let call (functionName : string) : M Emitted :=
    mret (Tuple (functionName +:+ "(" +:+ list +:+ ")") ORDER_UNARY_POSTFIX) in
  if bool_decide (func = Some "SUM") then
    include_numeric;;
    functionName ← provideFunction_ "math_sum" math_sum_template;
    call functionName
  else if bool_decide (func = Some "MIN") then
    functionName ← provideFunction_ "math_min" math_min_template;
    call functionName
  else if bool_decide (func = Some "MAX") then
    functionName ← provideFunction_ "math_max" math_max_template;
    call functionName
  else if bool_decide (func = Some "AVERAGE") then
    include_numeric;;
    functionName ← provideFunction_ "math_mean" math_mean_template;
    call functionName
  else
    (* MEDIAN, MODE, STD_DEV, RANDOM and every other value *)
    throw (Error ("Unknown operator: " +:+ show func)).

Definition math_modulo (block : Block) : M Emitted :=
  (* Remainder computation. *)
  let argument0 := Js.or_else (valueToCode block "DIVIDEND" ORDER_MULTIPLICATIVE) "0" in
  let argument1 := Js.or_else (valueToCode block "DIVISOR" ORDER_MULTIPLICATIVE) "0" in
  let code := argument0 +:+ " % " +:+ argument1 in
  mret (Tuple code ORDER_MULTIPLICATIVE).

Definition math_constrain (block : Block) : M Emitted :=
  (* Constrain a number between two limits. *)
  set_definition "include_cpp_algorithm" "#include <algorithm>";;
  Math.include_cmath;;
  let argument0 := Js.or_else (valueToCode block "VALUE" ORDER_NONE) "0" in
  let argument1 := Js.or_else (valueToCode block "LOW" ORDER_NONE) "0" in
  let argument2 := Js.or_else (valueToCode block "HIGH" ORDER_NONE) "INFINITY" in
  let code := "min(max(" +:+ argument0 +:+ ", " +:+ argument1 +:+ "), " +:+
              argument2 +:+ ")" in
  mret (Tuple code ORDER_UNARY_POSTFIX).

Definition include_cstdlib : M unit :=
  set_definition "include_cpp_cstdlib" "#include <cstdlib>".

Definition math_random_int_template (name : string) : string :=
  Js.NL +:+ unlines [
    "int " +:+ name +:+ "(int a, int b) {";
    "  if (a > b) {";
    "    // Swap a and b to ensure a is smaller.";
    "    int c = a;";
    "    a = b;";
    "    b = c;";
    "  }";
    "  return a + rand() % (b-a+1);";
    "}" ].

Definition math_random_int (block : Block) : M Emitted :=
  (* Random integer between [X] and [Y]. *)
  include_cstdlib;;
  let argument0 := Js.or_else (valueToCode block "FROM" ORDER_NONE) "0" in
  let argument1 := Js.or_else (valueToCode block "TO" ORDER_NONE) "0" in
  functionName ← provideFunction_ "math_random_int" math_random_int_template;
  let code := functionName +:+ "(" +:+ argument0 +:+ ", " +:+ argument1 +:+ ")" in
  mret (Tuple code ORDER_UNARY_POSTFIX).

Definition math_random_float (block : Block) : M Emitted :=
  (* Random fraction between 0 and 1. *)
  include_cstdlib;;
  mret (Tuple "rand() % 100 / 100.0" ORDER_MULTIPLICATIVE).

Definition math_atan2 (block : Block) : M Emitted :=
  (* Arctangent of point (X, Y) in degrees from -180 to 180. *)
  Math.include_cmath;;
  let argument0 := Js.or_else (valueToCode block "X" ORDER_NONE) "0" in
  let argument1 := Js.or_else (valueToCode block "Y" ORDER_NONE) "0" in
  mret (Tuple ("atan2(" +:+ argument1 +:+ ", " +:+ argument0 +:+ ") / M_PI * 180")
              ORDER_MULTIPLICATIVE).

End MathRules.
End MathRules.

(** ** [generators/cpp/math.js], the other file of math rules *)

Module MathFile.
Section MathFile.
Context `{Inherited}.

(** The table [CONSTANTS] of its [math_constant]. *)
Definition CONSTANTS : gmap string (string * Q) :=
  {[ "PI" := ("Math.pi", ORDER_UNARY_POSTFIX);
     "E" := ("Math.e", ORDER_UNARY_POSTFIX);
     "GOLDEN_RATIO" := ("(1 + Math.sqrt(5)) / 2", ORDER_MULTIPLICATIVE);
     "SQRT2" := ("Math.sqrt2", ORDER_UNARY_POSTFIX);
     "SQRT1_2" := ("Math.sqrt1_2", ORDER_UNARY_POSTFIX);
     "INFINITY" := ("double.infinity", ORDER_ATOMIC) ]}.

Definition math_constant (block : Block) : M Emitted :=
  (* Constants: PI, E, the Golden Ratio, sqrt(2), 1/sqrt(2), INFINITY. *)
  let constant := getFieldValue block "CONSTANT" in
  (if negb (bool_decide (constant = Some "INFINITY"))
   then Lists.import_dart_math else mret tt);;
  mret (Math.tuple_or_undefined (CONSTANTS !! show constant)).

End MathFile.
End MathFile.

(** ** More of the list rules *)

Module ListRules.
Section ListRules.
Context `{Inherited}.

(** The closure [cacheList] of [lists_setIndex]: a list that is not a plain
    identifier is bound to a new variable, and [list] becomes that
    variable. *)
Definition cacheList (list : string) : M (string * string) :=
  if Js.is_word list then mret (EmptyString, list)
  else
    listVar ← nameDB_getDistinctName "tmp_list" VARIABLE;
    let code := "List " +:+ listVar +:+ " = " +:+ list +:+ ";" +:+ Js.NL in
    mret (code, listVar).

Definition unhandled : M Emitted :=
  throw (Error "Unhandled combination (lists_setIndex).").

(** The values of MODE that have a case in [lists_setIndex]. *)
Definition handled_modes : list string := ["SET"; "INSERT"].

Definition lists_setIndex (block : Block) : M Emitted :=
  (* Set element at index. *)
  let mode := field_or block "MODE" "GET" in
  let where_ := field_or block "WHERE" "FROM_START" in
  let list := Js.or_else (valueToCode block "LIST" ORDER_UNARY_POSTFIX) "[]" in
  let value := Js.or_else (valueToCode block "TO" ORDER_ASSIGNMENT) "null" in
  if String.eqb where_ "FIRST" then
    if String.eqb mode "SET" then
      mret (Statement (list +:+ "[0] = " +:+ value +:+ ";" +:+ Js.NL))
    else if String.eqb mode "INSERT" then
      mret (Statement (list +:+ ".insert(0, " +:+ value +:+ ");" +:+ Js.NL))
    else unhandled
  else if String.eqb where_ "LAST" then
    if String.eqb mode "SET" then
      '(code, list) ← cacheList list;
      mret (Statement (code +:+ list +:+ "[" +:+ list +:+ ".length - 1] = " +:+
                       value +:+ ";" +:+ Js.NL))
    else if String.eqb mode "INSERT" then
      mret (Statement (list +:+ ".add(" +:+ value +:+ ");" +:+ Js.NL))
    else unhandled
  else if String.eqb where_ "FROM_START" then
    let at_ := toStr (CPP.getAdjusted block "AT" None false None) in
    if String.eqb mode "SET" then
      mret (Statement (list +:+ "[" +:+ at_ +:+ "] = " +:+ value +:+ ";" +:+ Js.NL))
    else if String.eqb mode "INSERT" then
      mret (Statement (list +:+ ".insert(" +:+ at_ +:+ ", " +:+ value +:+ ");" +:+ Js.NL))
    else unhandled
  else if String.eqb where_ "FROM_END" then
    let at_ := toStr (CPP.getAdjusted block "AT" (Some 1) false (Some ORDER_ADDITIVE)) in
    '(code, list) ← cacheList list;
    if String.eqb mode "SET" then
      mret (Statement (code +:+ list +:+ "[" +:+ list +:+ ".length - " +:+ at_ +:+
                       "] = " +:+ value +:+ ";" +:+ Js.NL))
    else if String.eqb mode "INSERT" then
      mret (Statement (code +:+ list +:+ ".insert(" +:+ list +:+ ".length - " +:+ at_ +:+
                       ", " +:+ value +:+ ");" +:+ Js.NL))
    else unhandled
  else if String.eqb where_ "RANDOM" then
    Lists.import_dart_math;;
    '(code, list) ← cacheList list;
    xVar ← nameDB_getDistinctName "tmp_x" VARIABLE;
    let code := code +:+ "int " +:+ xVar +:+ " = new Math.Random().nextInt(" +:+ list +:+
                ".length);" +:+ Js.NL in
    if String.eqb mode "SET" then
      mret (Statement (code +:+ list +:+ "[" +:+ xVar +:+ "] = " +:+ value +:+ ";" +:+ Js.NL))
    else if String.eqb mode "INSERT" then
      mret (Statement (code +:+ list +:+ ".insert(" +:+ xVar +:+ ", " +:+ value +:+ ");" +:+
                       Js.NL))
    else unhandled
  else unhandled.

Definition lists_get_sublist_template (name : string) : string :=
  Js.NL +:+ unlines [
    "List " +:+ name +:+
      "(List list, String where1, num at1, String where2, num at2) {";
    "  int getAt(String where, num at) {";
    "    if (where == 'FROM_END') {";
    "      at = list.length - 1 - at;";
    "    } else if (where == 'FIRST') {";
    "      at = 0;";
    "    } else if (where == 'LAST') {";
    "      at = list.length - 1;";
    "    } else if (where != 'FROM_START') {";
    "      throw 'Unhandled option (lists_getSublist).';";
    "    }";
    "    return at;";
    "  }";
    "  at1 = getAt(where1, at1);";
    "  at2 = getAt(where2, at2) + 1;";
    "  return list.sublist(at1, at2);";
    "}" ].

Definition unhandled_option {A} : M A :=
  throw (Error "Unhandled option (lists_getSublist).").

(** The test of line 308: the list is a variable, or no call for its length
    is needed. *)
Definition without_helper (list : string) (where1 where2 : option string) : bool :=
  Js.is_word list ||
  (negb (bool_decide (where1 = Some "FROM_END")) &&
   bool_decide (where2 = Some "FROM_START")).

(** The values of WHERE1 and of WHERE2 that have a case in the two
    [switch] statements of [lists_getSublist]. *)
Definition handled_where1 : list (option string) :=
  [Some "FROM_START"; Some "FROM_END"; Some "FIRST"].
Definition handled_where2 : list (option string) :=
  [Some "FROM_START"; Some "FROM_END"; Some "LAST"].

Definition lists_getSublist (block : Block) : M Emitted :=
  (* Get sublist. *)
  let list := Js.or_else (valueToCode block "LIST" ORDER_UNARY_POSTFIX) "[]" in
  let where1 := getFieldValue block "WHERE1" in
  let where2 := getFieldValue block "WHERE2" in
  if without_helper list where1 where2 then
    (* If the list is a is a variable or doesn't require a call for length,
       don't generate a helper function. *)
    at1 ←
      (if bool_decide (where1 = Some "FROM_START") then
         mret (toStr (CPP.getAdjusted block "AT1" None false None))
       else if bool_decide (where1 = Some "FROM_END") then
         let at1 := CPP.getAdjusted block "AT1" (Some 1) false (Some ORDER_ADDITIVE) in
         mret (list +:+ ".length - " +:+ toStr at1)
       else if bool_decide (where1 = Some "FIRST") then mret "0"
       else unhandled_option);
    at2 ←
      (if bool_decide (where2 = Some "FROM_START") then
         mret (toStr (CPP.getAdjusted block "AT2" (Some 1) false None))
       else if bool_decide (where2 = Some "FROM_END") then
         let at2 := CPP.getAdjusted block "AT2" (Some 0) false (Some ORDER_ADDITIVE) in
         mret (list +:+ ".length - " +:+ toStr at2)
       else if bool_decide (where2 = Some "LAST") then
         (* There is no second index if LAST option is chosen. *)
         mret "undefined"
       else unhandled_option);
    let code :=
      if bool_decide (where2 = Some "LAST")
      then list +:+ ".sublist(" +:+ at1 +:+ ")"
      else list +:+ ".sublist(" +:+ at1 +:+ ", " +:+ at2 +:+ ")" in
    mret (Tuple code ORDER_UNARY_POSTFIX)
  else
    let at1 := CPP.getAdjusted block "AT1" None false None in
    let at2 := CPP.getAdjusted block "AT2" None false None in
    functionName ← provideFunction_ "lists_get_sublist" lists_get_sublist_template;
    let code :=
      functionName +:+ "(" +:+ list +:+ ", '" +:+ show where1 +:+ "', " +:+ toStr at1 +:+
      ", '" +:+ show where2 +:+ "', " +:+ toStr at2 +:+ ")" in
    mret (Tuple code ORDER_UNARY_POSTFIX).

Definition lists_split (block : Block) : M Emitted :=
  (* Block for splitting text into a list, or joining a list into text. *)
  let input := valueToCode block "INPUT" ORDER_UNARY_POSTFIX in
  let delimiter := Js.or_else (valueToCode block "DELIM" ORDER_NONE) "''" in
  let mode := getFieldValue block "MODE" in
  '(input, functionName) ←
    (if bool_decide (mode = Some "SPLIT") then mret (Js.or_else input "''", "split")
     else if bool_decide (mode = Some "JOIN") then mret (Js.or_else input "[]", "join")
     else throw (Error ("Unknown mode: " +:+ show mode)));
  let code := input +:+ "." +:+ functionName +:+ "(" +:+ delimiter +:+ ")" in
  mret (Tuple code ORDER_UNARY_POSTFIX).

Definition lists_create_empty (block : Block) : M Emitted :=
  (* Create an empty list. *)
  mret (Tuple "[]" ORDER_ATOMIC).

Definition lists_repeat (block : Block) : M Emitted :=
  (* Create a list with one element repeated. *)
  let element := Js.or_else (valueToCode block "ITEM" ORDER_NONE) "null" in
  let repeatCount := Js.or_else (valueToCode block "NUM" ORDER_NONE) "0" in
  let code := "new List.filled(" +:+ repeatCount +:+ ", " +:+ element +:+ ")" in
  mret (Tuple code ORDER_UNARY_POSTFIX).

Definition lists_length (block : Block) : M Emitted :=
  (* String or array length. *)
  let list := Js.or_else (valueToCode block "VALUE" ORDER_UNARY_POSTFIX) "[]" in
  mret (Tuple (list +:+ ".length") ORDER_UNARY_POSTFIX).

Definition lists_isEmpty (block : Block) : M Emitted :=
  (* Is the string null or array empty? *)
  let list := Js.or_else (valueToCode block "VALUE" ORDER_UNARY_POSTFIX) "[]" in
  mret (Tuple (list +:+ ".isEmpty") ORDER_UNARY_POSTFIX).

Definition lists_indexOf (block : Block) : M Emitted :=
  (* Find an item in the list. *)
  let operator := if field_is block "END" "FIRST" then "indexOf" else "lastIndexOf" in
  let item := Js.or_else (valueToCode block "FIND" ORDER_NONE) "''" in
  let list := Js.or_else (valueToCode block "VALUE" ORDER_UNARY_POSTFIX) "[]" in
  let code := list +:+ "." +:+ operator +:+ "(" +:+ item +:+ ")" in
  if oneBasedIndex block then mret (Tuple (code +:+ " + 1") ORDER_ADDITIVE)
  else mret (Tuple code ORDER_UNARY_POSTFIX).

Definition lists_sort_template (name : string) : string :=
  Js.NL +:+ unlines [
    "List " +:+ name +:+ "(List list, String type, int direction) {";
    "  var compareFuncs = {";
    "    'NUMERIC': (a, b) => (direction * a.compareTo(b)).toInt(),";
    "    'TEXT': (a, b) => direction * a.toString().compareTo(b.toString()),";
    "    'IGNORE_CASE':";
    "      (a, b) => direction *";
    "      a.toString().toLowerCase().compareTo(b.toString().toLowerCase())";
    "  };";
    "  list = new List.from(list);";
    "  var compare = compareFuncs[type];";
    "  list.sort(compare);";
    "  return list;";
    "}" ].

Definition lists_sort (block : Block) : M Emitted :=
  (* Block for sorting a list. *)
  let list := Js.or_else (valueToCode block "LIST" ORDER_NONE) "[]" in
  let direction := if field_is block "DIRECTION" "1" then 1 else -1 in
  let type := getFieldValue block "TYPE" in
  sortFunctionName ← provideFunction_ "lists_sort" lists_sort_template;
  mret (Tuple (sortFunctionName +:+ "(" +:+ list +:+ ", " +:+
               Js.str Js.DQUOTE +:+ show type +:+ Js.str Js.DQUOTE +:+ ", " +:+
               Js.String_of_Z direction +:+ ")")
              ORDER_UNARY_POSTFIX).

Definition lists_reverse (block : Block) : M Emitted :=
  (* Block for reversing a list. *)
  let list := Js.or_else (valueToCode block "LIST" ORDER_NONE) "[]" in
  let code := "new List.from(" +:+ list +:+ ".reversed)" in
  mret (Tuple code ORDER_UNARY_POSTFIX).

End ListRules.
End ListRules.

(** ** More of [generators/cpp/text.js] *)

Module TextRules.
Section TextRules.
Context `{Inherited}.

Definition text_get_from_end_template (name : string) : string :=
  Js.NL +:+ unlines [
    "String " +:+ name +:+ "(String text, num x) {";
    "  return text[text.length - x];";
    "}" ].

Definition text_random_letter_template (name : string) : string :=
  Js.NL +:+ unlines [
    "String " +:+ name +:+ "(String text) {";
    "  int x = new Math.Random().nextInt(text.length);";
    "  return text[x];";
    "}" ].

(** The values of WHERE that have a case in [text_charAt]. *)
Definition handled_wheres : list string :=
  ["FIRST"; "FROM_START"; "LAST"; "FROM_END"; "RANDOM"].

Definition text_charAt (block : Block) : M Emitted :=
  (* Get letter at index. *)
  let where_ := field_or block "WHERE" "FROM_START" in
  let textOrder :=
    if String.eqb where_ "FIRST" || String.eqb where_ "FROM_START"
    then ORDER_UNARY_POSTFIX else ORDER_NONE in
  let text := Js.or_else (valueToCode block "VALUE" textOrder) "''" in
  if String.eqb where_ "FIRST" then
    mret (Tuple (text +:+ "[0]") ORDER_UNARY_POSTFIX)
  else if String.eqb where_ "FROM_START" then
    let at_ := CPP.getAdjusted block "AT" None false None in
    mret (Tuple (text +:+ "[" +:+ toStr at_ +:+ "]") ORDER_UNARY_POSTFIX)
  else if String.eqb where_ "LAST" || String.eqb where_ "FROM_END" then
    let at_ := if String.eqb where_ "LAST" then Some 1 else None in
    (* Fall through. *)
    let at_ := CPP.getAdjusted block "AT" (Some 1) false None in
    functionName ← provideFunction_ "text_get_from_end" text_get_from_end_template;
    mret (Tuple (functionName +:+ "(" +:+ text +:+ ", " +:+ toStr at_ +:+ ")")
                ORDER_UNARY_POSTFIX)
  else if String.eqb where_ "RANDOM" then
    Lists.import_dart_math;;
    functionName ← provideFunction_ "text_random_letter" text_random_letter_template;
    mret (Tuple (functionName +:+ "(" +:+ text +:+ ")") ORDER_UNARY_POSTFIX)
  else throw (Error "Unhandled option (text_charAt).").

Definition text_length (block : Block) : M Emitted :=
  (* String or array length. *)
  let text := Js.or_else (valueToCode block "VALUE" ORDER_UNARY_POSTFIX) "''" in
  mret (Tuple (text +:+ ".length") ORDER_UNARY_POSTFIX).

Definition text_isEmpty (block : Block) : M Emitted :=
  (* Is the string null or array empty? *)
  let text := Js.or_else (valueToCode block "VALUE" ORDER_UNARY_POSTFIX) "''" in
  mret (Tuple (text +:+ ".isEmpty") ORDER_UNARY_POSTFIX).

Definition text_indexOf (block : Block) : M Emitted :=
  (* Search the text for a substring. *)
  let operator := if field_is block "END" "FIRST" then "indexOf" else "lastIndexOf" in
  let substring := Js.or_else (valueToCode block "FIND" ORDER_NONE) "''" in
  let text := Js.or_else (valueToCode block "VALUE" ORDER_UNARY_POSTFIX) "''" in
  let code := text +:+ "." +:+ operator +:+ "(" +:+ substring +:+ ")" in
  if oneBasedIndex block then mret (Tuple (code +:+ " + 1") ORDER_ADDITIVE)
  else mret (Tuple code ORDER_UNARY_POSTFIX).

(** [text.match(/^'?\w+'?$/)] as a truth value: a plain identifier or
    number, with or without a quote before and a quote after. *)
Definition is_word_or_literal (text : string) : bool :=
  let text := match text with String "'" rest => rest | _ => text end in
  let text :=
    match String.get (String.length text - 1) text with
    | Some "'"%char => String.substring 0 (String.length text - 1) text
    | _ => text
    end in
  Js.is_word text.

Definition text_get_substring_template (name : string) : string :=
  Js.NL +:+ unlines [
    "String " +:+ name +:+
      "(String text, String where1, num at1, String where2, num at2) {";
    "  int getAt(String where, num at) {";
    "    if (where == 'FROM_END') {";
    "      at = text.length - 1 - at;";
    "    } else if (where == 'FIRST') {";
    "      at = 0;";
    "    } else if (where == 'LAST') {";
    "      at = text.length - 1;";
    "    } else if (where != 'FROM_START') {";
    "      throw 'Unhandled option (text_getSubstring).';";
    "    }";
    "    return at;";
    "  }";
    "  at1 = getAt(where1, at1);";
    "  at2 = getAt(where2, at2) + 1;";
    "  return text.substring(at1, at2);";
    "}" ].

Definition unhandled_substring {A} : M A :=
  throw (Error "Unhandled option (text_getSubstring).").

Definition text_getSubstring (block : Block) : M Emitted :=
  (* Get substring. *)
  let where1 := getFieldValue block "WHERE1" in
  let where2 := getFieldValue block "WHERE2" in
  let requiresLengthCall :=
    negb (bool_decide (where1 = Some "FROM_END")) &&
    bool_decide (where2 = Some "FROM_START") in
  let textOrder := if requiresLengthCall then ORDER_UNARY_POSTFIX else ORDER_NONE in
  let text := Js.or_else (valueToCode block "STRING" textOrder) "''" in
  if bool_decide (where1 = Some "FIRST") && bool_decide (where2 = Some "LAST") then
    mret (Tuple text ORDER_NONE)
  else if is_word_or_literal text || requiresLengthCall then
    (* If the text is a variable or literal or doesn't require a call for
       length, don't generate a helper function. *)
    at1 ←
      (if bool_decide (where1 = Some "FROM_START") then
         mret (toStr (CPP.getAdjusted block "AT1" None false None))
       else if bool_decide (where1 = Some "FROM_END") then
         let at1 := CPP.getAdjusted block "AT1" (Some 1) false (Some ORDER_ADDITIVE) in
         mret (text +:+ ".length - " +:+ toStr at1)
       else if bool_decide (where1 = Some "FIRST") then mret "0"
       else unhandled_substring);
    at2 ←
      (if bool_decide (where2 = Some "FROM_START") then
         mret (toStr (CPP.getAdjusted block "AT2" (Some 1) false None))
       else if bool_decide (where2 = Some "FROM_END") then
         let at2 := CPP.getAdjusted block "AT2" (Some 0) false (Some ORDER_ADDITIVE) in
         mret (text +:+ ".length - " +:+ toStr at2)
       else if bool_decide (where2 = Some "LAST") then mret "undefined"
       else unhandled_substring);
    let code :=
      if bool_decide (where2 = Some "LAST")
      then text +:+ ".substring(" +:+ at1 +:+ ")"
      else text +:+ ".substring(" +:+ at1 +:+ ", " +:+ at2 +:+ ")" in
    mret (Tuple code ORDER_UNARY_POSTFIX)
  else
    let at1 := CPP.getAdjusted block "AT1" None false None in
    let at2 := CPP.getAdjusted block "AT2" None false None in
    functionName ← provideFunction_ "text_get_substring" text_get_substring_template;
    let code :=
      functionName +:+ "(" +:+ text +:+ ", '" +:+ show where1 +:+ "', " +:+ toStr at1 +:+
      ", '" +:+ show where2 +:+ "', " +:+ toStr at2 +:+ ")" in
    mret (Tuple code ORDER_UNARY_POSTFIX).

Definition text_print (block : Block) : M Emitted :=
  (* Print statement. *)
  let msg := Js.or_else (valueToCode block "TEXT" ORDER_NONE) "''" in
  mret (Statement ("print(" +:+ msg +:+ ");" +:+ Js.NL)).

Definition text_prompt_ext (block : Block) : M Emitted :=
  (* Prompt function. *)
  set_definition "import_dart_html" "import 'dart:html' as Html;";;
  let msg :=
    if getField block "TEXT" then
      (* Internal message. *)
      CPP_quote.quote_ (text_of (getFieldValue block "TEXT"))
    else
      (* External message. *)
      Js.or_else (valueToCode block "TEXT" ORDER_NONE) "''" in
  let code := "Html.window.prompt(" +:+ msg +:+ ", '')" in
  let toNumber := field_is block "TYPE" "NUMBER" in
  if toNumber then
    Lists.import_dart_math;;
    mret (Tuple ("Math.parseDouble(" +:+ code +:+ ")") ORDER_UNARY_POSTFIX)
  else mret (Tuple code ORDER_UNARY_POSTFIX).

Definition text_count_template (name : string) : string :=
  Js.NL +:+ unlines [
    "int " +:+ name +:+ "(String haystack, String needle) {";
    "  if (needle.length == 0) {";
    "    return haystack.length + 1;";
    "  }";
    "  int index = 0;";
    "  int count = 0;";
    "  while (index != -1) {";
    "    index = haystack.indexOf(needle, index);";
    "    if (index != -1) {";
    "      count++;";
    "     index += needle.length;";
    "    }";
    "  }";
    "  return count;";
    "}" ].

Definition text_count (block : Block) : M Emitted :=
  let text := Js.or_else (valueToCode block "TEXT" ORDER_NONE) "''" in
  let sub := Js.or_else (valueToCode block "SUB" ORDER_NONE) "''" in
  (* Substring count is not a native CPP function.  Define one. *)
  functionName ← provideFunction_ "text_count" text_count_template;
  let code := functionName +:+ "(" +:+ text +:+ ", " +:+ sub +:+ ")" in
  mret (Tuple code ORDER_UNARY_POSTFIX).

Definition text_replace (block : Block) : M Emitted :=
  let text := Js.or_else (valueToCode block "TEXT" ORDER_UNARY_POSTFIX) "''" in
  let from := Js.or_else (valueToCode block "FROM" ORDER_NONE) "''" in
  let to := Js.or_else (valueToCode block "TO" ORDER_NONE) "''" in
  let code := text +:+ ".replaceAll(" +:+ from +:+ ", " +:+ to +:+ ")" in
  mret (Tuple code ORDER_UNARY_POSTFIX).

Definition text_reverse (block : Block) : M Emitted :=
  (* There isn't a sensible way to do this in CPP. *)
  let text := Js.or_else (valueToCode block "TEXT" ORDER_UNARY_POSTFIX) "''" in
  let code := "new String.fromCharCodes(" +:+ text +:+ ".runes.toList().reversed)" in
  mret (Tuple code ORDER_UNARY_PREFIX).

End TextRules.
End TextRules.

(** ** More of [generators/cpp/logic.js] *)

Module LogicRules.
Section LogicRules.
Context `{Inherited}.

Definition logic_negate (block : Block) : M Emitted :=
  (* Negation. *)
  let order := ORDER_UNARY_PREFIX in
  let argument0 := Js.or_else (valueToCode block "BOOL" order) "true" in
  let code := "!" +:+ argument0 in
  mret (Tuple code order).

Definition logic_boolean (block : Block) : M Emitted :=
  (* Boolean values true and false. *)
  let code := if field_is block "BOOL" "TRUE" then "true" else "false" in
  mret (Tuple code ORDER_ATOMIC).

Definition logic_null (block : Block) : M Emitted :=
  (* Null data type. *)
  mret (Tuple "NULL" ORDER_ATOMIC).

Definition logic_ternary (block : Block) : M Emitted :=
  (* Ternary operator. *)
  let value_if := Js.or_else (valueToCode block "IF" ORDER_CONDITIONAL) "false" in
  let value_then := Js.or_else (valueToCode block "THEN" ORDER_CONDITIONAL) "NULL" in
  let value_else := Js.or_else (valueToCode block "ELSE" ORDER_CONDITIONAL) "NULL" in
  let code := value_if +:+ " ? " +:+ value_then +:+ " : " +:+ value_else in
  mret (Tuple code ORDER_CONDITIONAL).

End LogicRules.
End LogicRules.

(** ** More of the loop rules *)

Module LoopRules.
Section LoopRules.
Context `{Inherited}.

Definition controls_whileUntil (block : Block) : M Emitted :=
  (* Do while/until loop. *)
  let until := field_is block "MODE" "UNTIL" in
  let argument0 :=
    Js.or_else
      (valueToCode block "BOOL" (if until then ORDER_UNARY_PREFIX else ORDER_NONE))
      "false" in
  let branch := statementToCode block "DO" in
  let branch := addLoopTrap branch block in
  let argument0 := if until then "!" +:+ argument0 else argument0 in
  mret (Statement ("while (" +:+ argument0 +:+ ") {" +:+ Js.NL +:+ branch +:+ "}" +:+
                   Js.NL)).

End LoopRules.
End LoopRules.

(** ** What a rule may do to the generator *)

(** The generator [g'] extends [g]: the keys of the registry [definitions_]
    are those of [g], in their order, followed by new ones; no helper
    function has lost or changed its name; the reserved words are the same;
    every identifier in use is still in use; and the generator is
    initialised if it was. *)
Record extends (g g' : Generator) : Prop := mkExtends {
  extends_definitions : (definitions_ g).*1 `prefix_of` (definitions_ g').*1;
  extends_functions : functionNames_ g ⊆ functionNames_ g';
  extends_reserved : reservedDict_ (nameDB_ g') = reservedDict_ (nameDB_ g);
  extends_names : dbReverse_ (nameDB_ g) ⊆ dbReverse_ (nameDB_ g');
  extends_initialized : isInitialized g' = isInitialized g;
}.

(** A call that completes, from every state of the generator, with a result
    that has the property [P]. *)
Definition yields {A} (P : A -> Prop) (m : M A) : Prop :=
  forall g, exists a g', m g = Normal a g' ∧ P a.

(** The two kinds of result of a rule: the text of a statement block, and
    the tuple of a value block with a given order. *)
Definition is_statement (emitted : Emitted) : Prop :=
  exists code, emitted = Statement code.
Definition is_value (order : Q) (emitted : Emitted) : Prop :=
  exists code, emitted = Tuple code order.

(** [block.getInputTargetBlock(name)], as what the driver emitted for that
    block: [None] if the block has no such input or nothing is connected
    to it. *)
Definition getInputTargetBlock (block : Block) (name : string) : option (string * Q) :=
  valueInputs block !! name ≫= id.

(** A call that, when it completes, leaves an extension of the generator it
    started from. *)
Definition extending {A} (m : M A) : Prop :=
  forall g a g', m g = Normal a g' -> extends g g'.

(** The rules for blocks that this development embeds: those without a
    [throw] or a failing member access on any path, those with one, and
    [math_constant], whose fate depends on the host page. *)
Definition lenient_rules `{Inherited} : list (Block -> M Emitted) :=
  [ Logic.controls_if; Logic.logic_operation; LogicRules.logic_negate;
    LogicRules.logic_boolean; LogicRules.logic_null; LogicRules.logic_ternary;
    Loops.controls_repeat_ext; LoopRules.controls_whileUntil; MathRules.math_modulo;
    MathRules.math_constrain; MathRules.math_random_int; MathRules.math_random_float;
    MathRules.math_atan2; MathFile.math_constant; ListRules.lists_create_empty;
    ListRules.lists_repeat; ListRules.lists_length; ListRules.lists_isEmpty;
    ListRules.lists_indexOf; ListRules.lists_sort; ListRules.lists_reverse;
    TextRules.text_length; TextRules.text_isEmpty; TextRules.text_indexOf;
    TextRules.text_print; TextRules.text_prompt_ext; TextRules.text_count;
    TextRules.text_replace; TextRules.text_reverse ].

Definition strict_rules `{Inherited} : list (Block -> M Emitted) :=
  [ Loops.controls_flow_statements; Math.math_arithmetic; Math.math_single;
    MathRules.math_number_property; MathRules.math_on_list; Lists.lists_getIndex;
    ListRules.lists_setIndex; ListRules.lists_getSublist; ListRules.lists_split;
    Texts.text; Texts.text_multiline; TextRules.text_charAt;
    TextRules.text_getSubstring ].

Definition block_rules `{Inherited} : list (Block -> M Emitted) :=
  lenient_rules ++ strict_rules ++ [Math.math_constant].

(** Unfolding the rules and the closures they call. *)
Create HintDb block_rules discriminated.
#[global] Hint Unfold
  Logic.controls_if Logic.logic_operation LogicRules.logic_negate
  LogicRules.logic_boolean LogicRules.logic_null LogicRules.logic_ternary
  Loops.controls_repeat_ext LoopRules.controls_whileUntil MathRules.math_modulo
  MathRules.math_constrain MathRules.math_random_int MathRules.math_random_float
  MathRules.math_atan2 MathFile.math_constant ListRules.lists_create_empty
  ListRules.lists_repeat ListRules.lists_length ListRules.lists_isEmpty
  ListRules.lists_indexOf ListRules.lists_sort ListRules.lists_reverse
  TextRules.text_length TextRules.text_isEmpty TextRules.text_indexOf
  TextRules.text_print TextRules.text_prompt_ext TextRules.text_count
  TextRules.text_replace TextRules.text_reverse Loops.controls_flow_statements
  Math.math_arithmetic Math.math_single MathRules.math_number_property
  MathRules.math_on_list Lists.lists_getIndex ListRules.lists_setIndex
  ListRules.lists_getSublist ListRules.lists_split Texts.text Texts.text_multiline
  TextRules.text_charAt TextRules.text_getSubstring Math.math_constant
  Math.include_cmath MathRules.include_numeric MathRules.include_cstdlib
  Lists.import_dart_math Lists.cacheList Lists.unhandled ListRules.unhandled
  ListRules.unhandled_option TextRules.unhandled_substring Texts.quote_field
  : block_rules.

(** ** The clauses of a conditional *)

(** The text of the clause for [IF n] / [DO n] when no statement suffix is
    configured. *)
Definition if_clause_text (block : Block) (n : nat) : string :=
  "if (" +:+ Js.or_else (valueToCode block ("IF" +:+ pretty n) ORDER_NONE) "false" +:+
  ") {" +:+ Js.NL +:+ statementToCode block ("DO" +:+ pretty n) +:+ "}".

(** ** A configuration for the examples

    No statement prefix or suffix, no loop trap, two spaces of indentation,
    every line of a text prefixed, and no global [constant]. *)

Fixpoint prefix_each_line (prefix text : string) : string :=
  match text with
  | EmptyString => EmptyString
  | String c text' =>
      String c
        (match text' with
         | EmptyString => EmptyString
         | _ => if Ascii.eqb c Js.LF then prefix +:+ prefix_each_line prefix text'
                else prefix_each_line prefix text'
         end)
  end.

Definition plain : Inherited := {|
  INDENT := "  ";
  STATEMENT_PREFIX := None;
  STATEMENT_SUFFIX := None;
  prefixLines := fun text prefix => prefix +:+ prefix_each_line prefix text;
  injectId := fun msg _ => msg;
  addLoopTrap := fun branch _ => branch;
  Generator_finish := fun code => code;
  String_Number := fun text => text;
  global_constant := None;
|}.

(** A generator in the middle of a run: [count] and [x] are in use. *)
Definition running : Generator :=
  {| definitions_ := [];
     functionNames_ := ∅;
     nameDB_ := {| reservedDict_ := {[ "int"; "for"; "while" ]};
                   dbReverse_ := {[ "count"; "x" ]} |};
     isInitialized := true |}.



(** The constant block set to PI. *)
Definition pi_block : Block :=
  {| type := "math_constant";
     fields := {[ "CONSTANT" := "PI" ]};
     valueInputs := ∅;
     statementInputs := ∅;
     oneBasedIndex := false;
     getSurroundLoop := None;
     suppressPrefixSuffix := false |}.


(** A block with one field, set to a value that its rule has no case for,
    and an operand [x]. *)
Definition option_block (kind field value : string) : Block :=
  {| type := kind;
     fields := {[ field := value ]};
     valueInputs := {[ "NUM" := Some ("x", ORDER_ATOMIC);
                       "VALUE" := Some ("items", ORDER_ATOMIC) ]};
     statementInputs := ∅;
     oneBasedIndex := false;
     getSurroundLoop := None;
     suppressPrefixSuffix := false |}.



(** A conditional with the conditions [A] and [B], three branches of one
    statement each, and an else branch. *)
Definition if_else_block : Block :=
  {| type := "controls_if";
     fields := ∅;
     valueInputs := {[ "IF0" := Some ("A", ORDER_ATOMIC);
                       "IF1" := Some ("B", ORDER_ATOMIC) ]};
     statementInputs := {[ "DO0" := Some ("  a();" +:+ Js.NL);
                           "DO1" := Some ("  b();" +:+ Js.NL);
                           "ELSE" := Some ("  c();" +:+ Js.NL) ]};
     oneBasedIndex := false;
     getSurroundLoop := None;
     suppressPrefixSuffix := false |}.

(** A repeat loop whose count input holds the given code. *)
Definition repeat_block (times : string) (order : Q) : Block :=
  {| type := "controls_repeat_ext";
     fields := ∅;
     valueInputs := {[ "TIMES" := Some (times, order) ]};
     statementInputs := {[ "DO" := Some ("  step();" +:+ Js.NL) ]};
     oneBasedIndex := false;
     getSurroundLoop := None;
     suppressPrefixSuffix := false |}.

(** Text blocks: one line, one line with a plus sign, two lines. *)
Definition text_block (kind text : string) : Block :=
  {| type := kind;
     fields := {[ "TEXT" := text ]};
     valueInputs := ∅;
     statementInputs := ∅;
     oneBasedIndex := false;
     getSurroundLoop := None;
     suppressPrefixSuffix := false |}.

(** A block whose index input AT holds the literal -3, of unary-prefix
    order as [math_number] gives it; indices count from 1. *)
Definition negative_index_block : Block :=
  {| type := "lists_getIndex";
     fields := {[ "MODE" := "GET"; "WHERE" := "FROM_START" ]};
     valueInputs := {[ "VALUE" := Some ("items", ORDER_ATOMIC);
                       "AT" := Some ("-3", ORDER_UNARY_PREFIX) ]};
     statementInputs := ∅;
     oneBasedIndex := true;
     getSurroundLoop := None;
     suppressPrefixSuffix := false |}.

(** A conditional with the conditions [A], [B] and [C], and a stray input
    IF4 left behind after IF3 was removed. *)
Definition if_chain_block : Block :=
  {| type := "controls_if";
     fields := ∅;
     valueInputs := {[ "IF0" := Some ("A", ORDER_ATOMIC);
                       "IF1" := Some ("B", ORDER_ATOMIC);
                       "IF2" := Some ("C", ORDER_ATOMIC);
                       "IF4" := Some ("E", ORDER_ATOMIC) ]};
     statementInputs := {[ "DO0" := Some ("  a();" +:+ Js.NL);
                           "DO1" := Some ("  b();" +:+ Js.NL);
                           "DO2" := Some ("  c();" +:+ Js.NL);
                           "DO4" := Some ("  e();" +:+ Js.NL) ]};
     oneBasedIndex := false;
     getSurroundLoop := None;
     suppressPrefixSuffix := false |}.


(** The last letter of the text [s], in a workspace whose indices count
    from 0 or from 1. *)
Definition last_letter_block (oneBased : bool) : Block :=
  {| type := "text_charAt";
     fields := {[ "WHERE" := "LAST" ]};
     valueInputs := {[ "VALUE" := Some ("s", ORDER_ATOMIC) ]};
     statementInputs := ∅;
     oneBasedIndex := oneBased;
     getSurroundLoop := None;
     suppressPrefixSuffix := false |}.

(** A sublist of the list [f()] between two positions chosen by WHERE1 and
    WHERE2. *)
Definition sublist_block (list where1 where2 : string) : Block :=
  {| type := "lists_getSublist";
     fields := {[ "WHERE1" := where1; "WHERE2" := where2 ]};
     valueInputs := {[ "LIST" := Some (list, ORDER_UNARY_POSTFIX);
                       "AT1" := Some ("1", ORDER_ATOMIC);
                       "AT2" := Some ("2", ORDER_ATOMIC) ]};
     statementInputs := ∅;
     oneBasedIndex := false;
     getSurroundLoop := None;
     suppressPrefixSuffix := false |}.


(** ** The claims in the words of the specification

    Where the code departs from a sentence of the specification, the
    sentence is stated here as a predicate, to be refuted on an example. *)

Module Spec.




(** The text [if (A) {\n...\n}\nelse if (B) {\n...\n}\nelse {\n...\n}\n],
    each [...] being the statement chain of a branch. *)
Definition conditional_text (A B branch0 branch1 branchElse : string) : string :=
  "if (" +:+ A +:+ ") {" +:+ Js.NL +:+ branch0 +:+ Js.NL +:+ "}" +:+ Js.NL +:+
  "else if (" +:+ B +:+ ") {" +:+ Js.NL +:+ branch1 +:+ Js.NL +:+ "}" +:+ Js.NL +:+
  "else {" +:+ Js.NL +:+ branchElse +:+ Js.NL +:+ "}" +:+ Js.NL.

(** The same text when the new-line that ends a statement chain is taken as
    the one written after [...]. *)
Definition conditional_text_tight (A B branch0 branch1 branchElse : string) : string :=
  "if (" +:+ A +:+ ") {" +:+ Js.NL +:+ branch0 +:+ "}" +:+ Js.NL +:+
  "else if (" +:+ B +:+ ") {" +:+ Js.NL +:+ branch1 +:+ "}" +:+ Js.NL +:+
  "else {" +:+ Js.NL +:+ branchElse +:+ "}" +:+ Js.NL.



End Spec.

(** * Properties *)

(** ** Strings *)

Section StringFacts.

Lemma app_cons (a : ascii) (s t : string) : String a s +:+ t = String a (s +:+ t).
Proof. reflexivity. Qed.

Lemma app_nil_l (s : string) : EmptyString +:+ s = s.
Proof. reflexivity. Qed.

Lemma app_nil_r (s : string) : s +:+ EmptyString = s.
Proof. induction s as [|a s IH]; [done|]. by rewrite app_cons, IH. Qed.

Lemma app_assoc (s t u : string) : (s +:+ t) +:+ u = s +:+ (t +:+ u).
Proof. induction s as [|a s IH]; [done|]. by rewrite !app_cons, IH. Qed.

Lemma length_app (s t : string) :
  String.length (s +:+ t) = (String.length s + String.length t)%nat.
Proof. induction s as [|a s IH]; [done|]. rewrite app_cons. simpl. by rewrite IH. Qed.



End StringFacts.

(** Bring both sides of an equation between concatenations to the same
    shape: nested to the right, literals spelled out. *)
Ltac string_norm :=
  unfold Js.NL, Js.str;
  repeat rewrite ?app_assoc, ?app_cons, ?app_nil_l, ?app_nil_r.

(** ** [CPP.quote_] *)

Section QuoteFacts.
Import Js CPP_quote.

Lemma replaceAll_app (c : ascii) (r s t : string) :
  replaceAll c r (s +:+ t) = replaceAll c r s +:+ replaceAll c r t.
Proof.
  induction s as [|a s IH]; [done|].
  rewrite app_cons. simpl. by rewrite IH, app_assoc.
Qed.

Lemma replaceAll_str_ne (c a : ascii) (r : string) :
  a ≠ c -> replaceAll c r (str a) = str a.
Proof. intros Hne. simpl. by apply Ascii.eqb_neq in Hne as ->. Qed.

(** The four replacements of [quote_], run one after the other, amount to
    one pass that escapes each character on its own: no replacement touches
    what an earlier one has inserted. *)
Lemma quote__escape (s : string) :
  quote_ s = str DQUOTE +:+ escape s +:+ str DQUOTE.
Proof.
  unfold quote_. do 2 f_equal.
  induction s as [|c s IH]; [done|].
  cbn [replaceAll escape]. rewrite !replaceAll_app, IH. f_equal.
  unfold escape_char.
  destruct (Ascii.eqb_spec c BACKSLASH) as [->|?]; [done|].
  destruct (Ascii.eqb_spec c LF) as [->|?]; [done|].
  destruct (Ascii.eqb_spec c DOLLAR) as [->|?]; [done|].
  destruct (Ascii.eqb_spec c DQUOTE) as [->|?]; [done|].
  by rewrite !replaceAll_str_ne.
Qed.

Lemma splice_lines_cons (a : ascii) (t : string) :
  head_not_LF t -> splice_lines (String a t) = String a (splice_lines t).
Proof.
  destruct t as [|b t]; [done|]. intros Hb. cbn [splice_lines].
  apply Ascii.eqb_neq in Hb as ->. by rewrite andb_false_r.
Qed.

Lemma escape_char_plain (c : ascii) :
  c ≠ BACKSLASH -> c ≠ LF -> c ≠ DOLLAR -> c ≠ DQUOTE -> escape_char c = str c.
Proof.
  intros H1 H2 H3 H4. unfold escape_char.
  apply Ascii.eqb_neq in H1 as ->. apply Ascii.eqb_neq in H2 as ->.
  apply Ascii.eqb_neq in H3 as ->. by apply Ascii.eqb_neq in H4 as ->.
Qed.

(** The five ways a character is escaped. *)
Lemma escape_char_cases (c : ascii) :
  (c = BACKSLASH ∨ c = LF ∨ c = DOLLAR ∨ c = DQUOTE) ∨
  (c ≠ BACKSLASH ∧ c ≠ LF ∧ c ≠ DOLLAR ∧ c ≠ DQUOTE).
Proof.
  destruct (Ascii.eqb_spec c BACKSLASH); [tauto|].
  destruct (Ascii.eqb_spec c LF); [tauto|].
  destruct (Ascii.eqb_spec c DOLLAR); [tauto|].
  destruct (Ascii.eqb_spec c DQUOTE); tauto.
Qed.

Ltac escape_cases c :=
  destruct (escape_char_cases c) as [[-> | [-> | [-> | ->]]] | (? & ? & ? & ?)].

Ltac flatten_app :=
  unfold str; rewrite ?app_assoc, ?app_cons, ?app_nil_l.

Lemma escape_head_not_LF (s t : string) :
  head_not_LF t -> head_not_LF (escape s +:+ t).
Proof.
  intros Ht. destruct s as [|c s]; [done|].
  cbn [escape]. escape_cases c; try done.
  rewrite escape_char_plain by done. by flatten_app.
Qed.

(** Line splicing deletes exactly the escaped new-lines of an escaped
    text. *)
Lemma splice_lines_escape (s t : string) :
  head_not_LF t ->
  splice_lines (escape s +:+ t) = escape (drop_newlines s) +:+ splice_lines t.
Proof.
  intros Ht. induction s as [|c s IH]; [done|].
  pose proof (escape_head_not_LF s t Ht) as Hhead.
  escape_cases c.
  - change (drop_newlines (String BACKSLASH s))
      with (String BACKSLASH (drop_newlines s)).
    cbn [escape].
    change (escape_char BACKSLASH) with (str BACKSLASH +:+ str BACKSLASH).
    flatten_app. rewrite !splice_lines_cons by done. by rewrite IH.
  - change (drop_newlines (String LF s)) with (drop_newlines s).
    cbn [escape]. change (escape_char LF) with (str BACKSLASH +:+ str LF).
    flatten_app. done.
  - change (drop_newlines (String DOLLAR s))
      with (String DOLLAR (drop_newlines s)).
    cbn [escape].
    change (escape_char DOLLAR) with (str BACKSLASH +:+ str DOLLAR).
    flatten_app. rewrite !splice_lines_cons by done. by rewrite IH.
  - change (drop_newlines (String DQUOTE s))
      with (String DQUOTE (drop_newlines s)).
    cbn [escape].
    change (escape_char DQUOTE) with (str BACKSLASH +:+ str DQUOTE).
    flatten_app. rewrite !splice_lines_cons by done. by rewrite IH.
  - cbn [drop_newlines]. rewrite (proj2 (Ascii.eqb_neq c LF)) by done.
    cbn [escape]. rewrite escape_char_plain by done.
    flatten_app. rewrite splice_lines_cons by done. by rewrite IH.
Qed.

Lemma drop_newlines_no_LF (s : string) :
  all_chars (fun c => negb (Ascii.eqb c LF)) (drop_newlines s) = true.
Proof.
  induction s as [|c s IH]; [done|]. cbn [drop_newlines].
  destruct (Ascii.eqb c LF) eqn:E; [done|]. cbn [all_chars]. by rewrite E, IH.
Qed.

Lemma drop_newlines_id (s : string) :
  all_chars (fun c => negb (Ascii.eqb c LF)) s = true -> drop_newlines s = s.
Proof.
  induction s as [|c s IH]; [done|]. cbn [all_chars drop_newlines].
  intros [Hc Hs]%andb_true_iff. apply negb_true_iff in Hc as ->. by rewrite IH.
Qed.

(** Replacing the escape sequences undoes [escape] on a text without
    new-lines. *)
Lemma decode_body_escape (s : string) :
  all_chars (fun c => negb (Ascii.eqb c LF)) s = true ->
  decode_body (escape s +:+ str DQUOTE) = Some s.
Proof.
  induction s as [|c s IH]; [done|]. cbn [all_chars escape].
  intros [Hc Hs]%andb_true_iff. apply negb_true_iff in Hc.
  specialize (IH Hs).
  escape_cases c; try discriminate Hc.
  - change (escape_char BACKSLASH) with (str BACKSLASH +:+ str BACKSLASH).
    flatten_app. change (str DQUOTE) with (String DQUOTE EmptyString) in IH.
    cbn [decode_body]. change (unescape BACKSLASH) with (Some BACKSLASH).
    cbn -[decode_body]. by rewrite IH.
  - change (escape_char DOLLAR) with (str BACKSLASH +:+ str DOLLAR).
    flatten_app. change (str DQUOTE) with (String DQUOTE EmptyString) in IH.
    cbn [decode_body]. change (unescape DOLLAR) with (Some DOLLAR).
    cbn -[decode_body]. by rewrite IH.
  - change (escape_char DQUOTE) with (str BACKSLASH +:+ str DQUOTE).
    flatten_app. change (str DQUOTE) with (String DQUOTE EmptyString) in IH.
    cbn [decode_body]. change (unescape DQUOTE) with (Some DQUOTE).
    cbn -[decode_body]. by rewrite IH.
  - rewrite escape_char_plain by done.
    flatten_app. change (str DQUOTE) with (String DQUOTE EmptyString) in IH.
    cbn [decode_body].
    rewrite (proj2 (Ascii.eqb_neq c DQUOTE)), (proj2 (Ascii.eqb_neq c BACKSLASH)), Hc by done.
    by rewrite IH.
Qed.

(** What a C++ compiler reads back from [quote_ s]: the text [s] without
    its new-lines. *)
Lemma cpp_decode_quote_ (s : string) :
  cpp_decode (quote_ s) = Some (drop_newlines s).
Proof.
  rewrite quote__escape. unfold cpp_decode, str at 1.
  rewrite app_cons, app_nil_l.
  rewrite splice_lines_cons by (by apply escape_head_not_LF).
  rewrite Ascii.eqb_refl, splice_lines_escape by done.
  apply decode_body_escape, drop_newlines_no_LF.
Qed.

(** The round trip succeeds exactly on the texts without a new-line. *)
Lemma cpp_decode_quote__roundtrip (s : string) :
  cpp_decode (quote_ s) = Some s <->
  all_chars (fun c => negb (Ascii.eqb c LF)) s = true.
Proof.
  rewrite cpp_decode_quote_. split.
  - intros [= Heq]. rewrite <- Heq. apply drop_newlines_no_LF.
  - intros Hs. by rewrite drop_newlines_id.
Qed.

End QuoteFacts.

(** C3: the literal that [quote_] produces for a text with a new-line is
    not read back as that text.  The new-line is emitted as backslash,
    line feed, which C++ removes as a line splice, so the decoded text has
    lost the new-line. *)
Theorem quote__newline_not_restored :
  let s := "a" +:+ Js.NL +:+ "b" in
  CPP_quote.quote_ s =
    Js.str Js.DQUOTE +:+ "a\" +:+ Js.NL +:+ "b" +:+ Js.str Js.DQUOTE ∧
  CPP_quote.cpp_decode (CPP_quote.quote_ s) = Some "ab" ∧
  CPP_quote.cpp_decode (CPP_quote.quote_ s) ≠ Some s.
Proof. vm_compute. split; [done|]. split; [done|discriminate]. Qed.

(** ** The name table *)

Section NameFacts.

(** Pigeonhole: a set that holds the first [n] values of an injective
    function has at least [n] elements. *)
Lemma inj_prefix_size (f : nat -> string) (X : gset string) (n : nat) :
  Inj (=) (=) f ->
  (forall j, (j < n)%nat -> f j ∈ X) ->
  (n <= size X)%nat.
Proof.
  intros Hinj Hin.
  set (L := f <$> seq 0 n).
  assert (NoDup L) as Hnd by (apply (NoDup_fmap_2 f), NoDup_seq).
  assert (list_to_set L ⊆ X) as Hsub.
  { intros x [j [-> Hj%elem_of_seq]]%elem_of_list_to_set%list_elem_of_fmap.
    apply Hin. lia. }
  apply subseteq_size in Hsub.
  rewrite size_list_to_set in Hsub by done.
  unfold L in Hsub. by rewrite length_fmap, length_seq in Hsub.
Qed.

Lemma pretty_N_go_nonempty (x : N) (s : string) :
  s ≠ EmptyString -> pretty_N_go x s ≠ EmptyString.
Proof.
  revert s. induction (N.lt_wf_0 x) as [x _ IH]. intros s Hs.
  destruct (decide (x = 0)%N) as [->|Hx]; [by rewrite pretty_N_go_0|].
  rewrite pretty_N_go_step by lia. apply IH; [|done].
  apply N.div_lt; lia.
Qed.

Lemma pretty_nat_nonempty (n : nat) : pretty n ≠ EmptyString.
Proof.
  unfold pretty, pretty_nat, pretty, pretty_N.
  case_decide; [done|].
  rewrite pretty_N_go_step by lia. by apply pretty_N_go_nonempty.
Qed.

Lemma app_eq_self (s t : string) : s = s +:+ t -> t = EmptyString.
Proof.
  intros Heq. apply (f_equal String.length) in Heq.
  rewrite length_app in Heq. destruct t; [done|]. simpl in Heq. lia.
Qed.

#[local] Instance candidate_inj (name : string) : Inj (=) (=) (candidate name).
Proof.
  intros [|i] [|j] Heq; simpl in Heq.
  - done.
  - apply app_eq_self in Heq. by apply pretty_nat_nonempty in Heq.
  - symmetry in Heq. apply app_eq_self in Heq. by apply pretty_nat_nonempty in Heq.
  - apply (inj (String.append name)), (inj pretty) in Heq. lia.
Qed.

(** The search for a free spelling ends on a free one, as long as the
    steps it may take make up for the size of the set. *)
Lemma firstFree_fresh (used : gset string) (name : string) (fuel i : nat) :
  (forall j, (j < i)%nat -> candidate name j ∈ used) ->
  (size used <= i + fuel)%nat ->
  firstFree used name i fuel ∉ used.
Proof.
  revert i. induction fuel as [|fuel IH]; intros i Hbelow Hsize; simpl.
  - intros Hi.
    assert (S i <= size used)%nat; [|lia].
    apply (inj_prefix_size (candidate name)); [apply _|].
    intros j Hj. destruct (decide (j = i)) as [->|]; [done|]. apply Hbelow. lia.
  - case_decide as Hi; [|done].
    apply IH; [|lia].
    intros j Hj. destruct (decide (j = i)) as [->|]; [done|]. apply Hbelow. lia.
Qed.

(** The name that [getDistinctName] returns differs from every name in use
    and from every reserved word. *)
Lemma getDistinctName_fresh (name : string) (kind : NameType) (db : Names) :
  (getDistinctName name kind db).1 ∉ taken db.
Proof. apply firstFree_fresh; [lia|simpl; lia]. Qed.


Lemma getDistinctName_reserved (name : string) (kind : NameType) (db : Names) :
  reservedDict_ (getDistinctName name kind db).2 = reservedDict_ db.
Proof. done. Qed.


Lemma nameDB_getDistinctName_run (name : string) (kind : NameType) (g : Generator) :
  nameDB_getDistinctName name kind g =
    Normal (getDistinctName name kind (nameDB_ g)).1
      {| definitions_ := definitions_ g;
         functionNames_ := functionNames_ g;
         nameDB_ := (getDistinctName name kind (nameDB_ g)).2;
         isInitialized := isInitialized g |}.
Proof.
  unfold nameDB_getDistinctName. by destruct (getDistinctName name kind (nameDB_ g)).
Qed.

End NameFacts.


(** ** [CPP.getAdjusted] *)

Section GetAdjustedFacts.

Lemma parens_ne (s : string) : "(" +:+ s +:+ ")" ≠ s.
Proof.
  intros Heq. apply (f_equal String.length) in Heq.
  rewrite !length_app in Heq. simpl in Heq. lia.
Qed.

(** The driver, as modelled, parenthesizes the code of a connected block
    exactly when its order is greater than the required one. *)
Lemma valueToCode_parenthesizes (block : Block) (name code : string) (p q : Q) :
  valueInputs block !! name = Some (Some (code, q)) ->
  valueToCode block name p = (if Qle_bool q p then code else "(" +:+ code +:+ ")") ∧
  (valueToCode block name p = "(" +:+ code +:+ ")" <-> (p < q)%Q).
Proof.
  intros Hslot. unfold valueToCode. rewrite Hslot. split; [done|].
  destruct (Qle_bool q p) eqn:Hle.
  - apply Qle_bool_iff in Hle. split.
    + intros Heq. symmetry in Heq. by apply parens_ne in Heq.
    + intros Hlt. by apply Qlt_not_le in Hlt.
  - split; [|done]. intros _. apply Qnot_le_lt. intros Hle'.
    apply Qle_bool_iff in Hle'. congruence.
Qed.










End GetAdjustedFacts.

(** ** [CPP.finish] *)

Section FinishFacts.
Context `{Inherited}.


End FinishFacts.

(** With [#include <cmath>] and a helper function registered, the finished
    program is the bare [main] function. *)
Example finish_drops_include :
  exists g',
    CPP.finish (H := plain) ("x = pow(2, 3);" +:+ Js.NL)
      (mkGenerator [("include_cpp_cmath", "#include <cmath>");
                    ("math_sum", "int math_sum(list<int> myList) { return 0; }")]
                   ∅ (nameDB_ running) true)
    = Normal ("int main() {" +:+ Js.NL +:+
              "  x = pow(2, 3);" +:+ Js.NL +:+
              "  return 0;" +:+ Js.NL +:+ "}") g'.
Proof. eexists. vm_compute. reflexivity. Qed.

(** ** [math_constant] *)

Section MathConstantFacts.
Context `{Inherited}.

(** The rule never looks at its block. *)
Lemma math_constant_ignores_block (block1 block2 : Block) (g : Generator) :
  Math.math_constant block1 g = Math.math_constant block2 g.
Proof. reflexivity. Qed.

(** Unless the host page defines a global [constant], the rule throws. *)
Lemma math_constant_throws (block : Block) (g : Generator) :
  global_constant = None ->
  Math.math_constant block g = Throw (ReferenceError "constant is not defined").
Proof.
  intros Hglobal. unfold Math.math_constant, mbind, M_bind. simpl.
  by rewrite Hglobal.
Qed.

End MathConstantFacts.

(** C5: for the block whose CONSTANT field is PI the rule does not return
    [M_PI] at atomic order: the lookup [CONSTANTS[constant]] names a
    variable that does not exist, and the rule ends in a
    [ReferenceError]. *)
Theorem math_constant_PI_throws :
  getFieldValue pi_block "CONSTANT" = Some "PI" ∧
  Math.math_constant (H := plain) pi_block running
    = Throw (ReferenceError "constant is not defined") ∧
  Math.tuple_or_undefined (Math.CONSTANTS !! "PI") = Tuple "M_PI" ORDER_ATOMIC.
Proof. split; [reflexivity|]. split; reflexivity. Qed.

(** ** Unknown option values *)

(** Evaluate the comparisons of string literals in the goal. *)
Ltac eval_eqb :=
  repeat match goal with
  | |- context [String.eqb ?a ?b] =>
      let v := eval vm_compute in (String.eqb a b) in
      match v with
      | true => change (String.eqb a b) with true
      | false => change (String.eqb a b) with false
      end
  end;
  cbn [andb orb negb].

(** Use that [x] is none of the members of a list of literals. *)
Ltac none_of x Hout :=
  repeat match goal with
  | |- context [String.eqb x ?k] =>
      rewrite (proj2 (String.eqb_neq x k))
        by (intros ->; apply Hout; apply list_elem_of_In; simpl; tauto)
  end;
  cbn [andb orb negb].

(** Split on which member of a list of literals [x] is. *)
Ltac one_of Hin :=
  repeat (apply elem_of_cons in Hin as [-> | Hin]);
  [.. | by apply elem_of_nil in Hin].

Section UnknownOptionFacts.
Context `{Inherited}.





End UnknownOptionFacts.



(** ** [controls_if] *)

Section ControlsIfFacts.
Context `{Inherited}.

#[local] Instance if_name_inj : Inj (=) (=) Logic.if_name.
Proof.
  intros i j Heq. unfold Logic.if_name in Heq.
  apply (inj (String.append "IF")), (inj pretty) in Heq. lia.
Qed.

Lemma getInput_dom (block : Block) (name : string) :
  getInput block name = true ->
  name ∈ dom (valueInputs block) ∪ dom (statementInputs block).
Proof.
  unfold getInput. intros [Hv|Hs]%orb_true_iff.
  - apply bool_decide_eq_true in Hv. apply elem_of_union_l. by apply elem_of_dom.
  - apply bool_decide_eq_true in Hs. apply elem_of_union_r. by apply elem_of_dom.
Qed.

(** A block with inputs IF1 to IFn has at least [n] inputs. *)
Lemma if_inputs_count (block : Block) (n : nat) :
  (forall j, (j < n)%nat -> getInput block (Logic.if_name j) = true) ->
  (n <= Logic.inputCount block)%nat.
Proof.
  intros Hin.
  pose proof (inj_prefix_size Logic.if_name
    (dom (valueInputs block) ∪ dom (statementInputs block)) n _) as Hsize.
  etrans; [apply Hsize; intros j Hj; by apply getInput_dom, Hin|].
  rewrite size_union_alt. unfold Logic.inputCount. rewrite <- !size_dom.
  by apply Nat.add_le_mono_l, subseteq_size, subseteq_difference_l.
Qed.

(** The bound on the passes of the loop is never what ends it: from the
    number of inputs on, more fuel changes nothing. *)
Lemma controls_if_loop_fuel (block : Block) (fuel1 fuel2 n : nat) (code : string) :
  (forall j, (j < n)%nat -> getInput block (Logic.if_name j) = true) ->
  (Logic.inputCount block <= n + fuel1)%nat ->
  (Logic.inputCount block <= n + fuel2)%nat ->
  Logic.controls_if_loop block fuel1 n code = Logic.controls_if_loop block fuel2 n code.
Proof.
  revert fuel2 n code.
  induction fuel1 as [|fuel1 IH]; intros fuel2 n code Hbelow H1 H2.
  - destruct fuel2 as [|fuel2]; [done|]. simpl.
    destruct (getInput block ("IF" +:+ pretty (S n))) eqn:Hnext; [|done].
    assert (S n <= Logic.inputCount block)%nat; [|lia].
    apply if_inputs_count. intros j Hj.
    destruct (decide (j = n)) as [->|]; [done|]. apply Hbelow. lia.
  - simpl. destruct (getInput block ("IF" +:+ pretty (S n))) eqn:Hnext.
    + assert (forall j, (j < S n)%nat -> getInput block (Logic.if_name j) = true) as Hbelow'.
      { intros j Hj. destruct (decide (j = n)) as [->|]; [done|]. apply Hbelow. lia. }
      destruct fuel2 as [|fuel2].
      * pose proof (if_inputs_count block (S n) Hbelow'). lia.
      * simpl. rewrite Hnext. apply IH; [done|lia..].
    + destruct fuel2 as [|fuel2]; [done|]. simpl. by rewrite Hnext.
Qed.

Lemma controls_if_fuel (block : Block) (fuel : nat) (code : string) :
  (Logic.inputCount block <= fuel)%nat ->
  Logic.controls_if_loop block fuel 0 code
    = Logic.controls_if_loop block (Logic.inputCount block) 0 code.
Proof. intros Hfuel. apply controls_if_loop_fuel; [lia|lia|lia]. Qed.

(** The loop emits the clause of IF0 first. *)
Lemma controls_if_loop_first (block : Block) (fuel n : nat) (code : string) :
  exists rest,
    Logic.controls_if_loop block fuel n code
      = Logic.controls_if_clause block n code +:+ rest.
Proof.
  revert n code. induction fuel as [|fuel IH]; intros n code; simpl.
  - exists EmptyString. by rewrite app_nil_r.
  - destruct (getInput block _).
    + destruct (IH (S n) (Logic.controls_if_clause block n code)) as [rest ->].
      unfold Logic.controls_if_clause at 1. rewrite !app_assoc. eauto.
    + exists EmptyString. by rewrite app_nil_r.
Qed.

Lemma getInput_value (block : Block) (name : string) (target : option (string * Q)) :
  valueInputs block !! name = Some target -> getInput block name = true.
Proof.
  intros Hin. unfold getInput. rewrite Hin.
  by rewrite bool_decide_eq_true_2 by eauto.
Qed.

Lemma getInput_statement (block : Block) (name : string) (target : option string) :
  statementInputs block !! name = Some target -> getInput block name = true.
Proof.
  intros Hin. unfold getInput. rewrite Hin.
  rewrite (bool_decide_eq_true_2 (is_Some (Some target))) by eauto.
  apply orb_true_r.
Qed.

(** C6, as the code has it: with no statement prefix or suffix, a
    conditional with the inputs IF0, IF1 (and no IF2) and ELSE emits
    [if (A) {\n b0 }else if (B) {\n b1 } else {\n bE }\n]: the second
    clause follows the closing brace directly, the else clause follows it
    after one space, and each branch text occurs once, in its own
    clause. *)
Theorem controls_if_two_conditions_else (block : Block) (g : Generator)
    (target0 target1 : option (string * Q)) (targetElse : option string) :
  truthy STATEMENT_PREFIX = false ->
  truthy STATEMENT_SUFFIX = false ->
  valueInputs block !! "IF0" = Some target0 ->
  valueInputs block !! "IF1" = Some target1 ->
  getInput block "IF2" = false ->
  statementInputs block !! "ELSE" = Some targetElse ->
  let A := Js.or_else (valueToCode block "IF0" ORDER_NONE) "false" in
  let B := Js.or_else (valueToCode block "IF1" ORDER_NONE) "false" in
  Logic.controls_if block g =
    Normal (Statement
      ("if (" +:+ A +:+ ") {" +:+ Js.NL +:+ statementToCode block "DO0" +:+
       "}else if (" +:+ B +:+ ") {" +:+ Js.NL +:+ statementToCode block "DO1" +:+
       "} else {" +:+ Js.NL +:+ statementToCode block "ELSE" +:+ "}" +:+ Js.NL)) g.
Proof.
  intros Hprefix Hsuffix H0 H1 H2 Helse A B.
  unfold Logic.controls_if. rewrite Hprefix, Hsuffix.
  rewrite (getInput_statement _ _ _ Helse). cbn [orb].
  assert (1 <= Logic.inputCount block)%nat as Hcount.
  { apply if_inputs_count. intros j Hj. replace j with 0%nat by lia.
    by apply (getInput_value _ _ target1). }
  destruct (Logic.inputCount block) as [|fuel]; [lia|].
  cbn [Logic.controls_if_loop].
  change ("IF" +:+ pretty 1%nat) with "IF1".
  rewrite (getInput_value _ _ _ H1).
  assert (Logic.controls_if_loop block fuel 1
            (Logic.controls_if_clause block 0 EmptyString)
          = Logic.controls_if_clause block 1
              (Logic.controls_if_clause block 0 EmptyString)) as ->.
  { destruct fuel as [|fuel]; [done|]. cbn [Logic.controls_if_loop].
    change ("IF" +:+ pretty 2%nat) with "IF2". by rewrite H2. }
  unfold Logic.controls_if_clause. rewrite Hsuffix.
  change ("IF" +:+ pretty 0%nat) with "IF0". change ("DO" +:+ pretty 0%nat) with "DO0".
  change ("IF" +:+ pretty 1%nat) with "IF1". change ("DO" +:+ pretty 1%nat) with "DO1".
  fold A B. cbn [Nat.ltb Nat.leb].
  unfold mret, M_ret. do 2 f_equal. by string_norm.
Qed.

End ControlsIfFacts.

(** The conditional with conditions [A] and [B]. *)
Lemma controls_if_two_conditions_else_witness :
  Logic.controls_if (H := plain) if_else_block running =
    Normal (Statement
      ("if (A) {" +:+ Js.NL +:+ "  a();" +:+ Js.NL +:+
       "}else if (B) {" +:+ Js.NL +:+ "  b();" +:+ Js.NL +:+
       "} else {" +:+ Js.NL +:+ "  c();" +:+ Js.NL +:+ "}" +:+ Js.NL)) running.
Proof.
  apply (controls_if_two_conditions_else (H := plain) if_else_block running
           (Some ("A", ORDER_ATOMIC)) (Some ("B", ORDER_ATOMIC))
           (Some ("  c();" +:+ Js.NL))); reflexivity.
Defined.

(** C6, as the specification words it, fails: the text emitted for the
    conditional with conditions [A] and [B] has no new-line between a
    closing brace and the [else] that follows, whether or not the new-line
    that ends a branch is counted as the one before the brace. *)
Lemma controls_if_text_differs :
  let branch0 := statementToCode if_else_block "DO0" in
  let branch1 := statementToCode if_else_block "DO1" in
  let branchElse := statementToCode if_else_block "ELSE" in
  ¬ (Logic.controls_if (H := plain) if_else_block running
       = Normal (Statement (Spec.conditional_text "A" "B" branch0 branch1 branchElse))
           running
     ∨ Logic.controls_if (H := plain) if_else_block running
       = Normal (Statement
                   (Spec.conditional_text_tight "A" "B" branch0 branch1 branchElse))
           running).
Proof.
  intros branch0 branch1 branchElse [Heq | Heq];
    apply (f_equal (fun c => match c with
                             | Normal (Statement text) _ => text
                             | _ => EmptyString
                             end)) in Heq;
    vm_compute in Heq; discriminate Heq.
Qed.

(** ** Unconnected inputs *)

Section UnconnectedFacts.
Context `{Inherited}.





End UnconnectedFacts.


(** ** [controls_repeat_ext] *)

Section RepeatFacts.
Context `{Inherited}.

(** C7: a repeat loop whose count input holds the literal 5 becomes a
    [for] loop whose variable starts at 0, runs while it is less than 5 and
    is incremented by one; the variable is a name that was neither in use
    nor reserved, and it is in use afterwards. *)
Theorem controls_repeat_ext_literal_5 (block : Block) (g : Generator) :
  getField block "TIMES" = false ->
  valueInputs block !! "TIMES" = Some (Some ("5", ORDER_ATOMIC)) ->
  exists loopVar g',
    Loops.controls_repeat_ext block g =
      Normal (Statement
        ("for (int " +:+ loopVar +:+ " = 0; " +:+ loopVar +:+ " < 5; " +:+
         loopVar +:+ "++) {" +:+ Js.NL +:+
         addLoopTrap (statementToCode block "DO") block +:+ "}" +:+ Js.NL)) g' ∧
    (loopVar ∉ dbReverse_ (nameDB_ g)) ∧
    (loopVar ∉ reservedDict_ (nameDB_ g)) ∧
    dbReverse_ (nameDB_ g') = {[ loopVar ]} ∪ dbReverse_ (nameDB_ g).
Proof.
  intros Hfield Hslot.
  pose proof (getDistinctName_fresh "count" VARIABLE (nameDB_ g)) as Hfresh.
  unfold Loops.controls_repeat_ext. rewrite Hfield.
  unfold valueToCode. rewrite Hslot.
  change (Qle_bool ORDER_ATOMIC ORDER_ASSIGNMENT) with true. cbv iota.
  change (Js.or_else "5" "0") with "5".
  change (negb (Js.is_word "5") && negb (isNumber "5")) with false. cbv iota.
  unfold mbind, M_bind, nameDB_getDistinctName.
  destruct (getDistinctName "count" VARIABLE (nameDB_ g)) as [loopVar db] eqn:Hname.
  exists loopVar. eexists. split; [|split; [|split]].
  - unfold mret, M_ret, Loops.for_loop. cbn [fst snd].
    rewrite app_nil_l. reflexivity.
  - intros Hin. apply Hfresh. by apply elem_of_union_l.
  - intros Hin. apply Hfresh. by apply elem_of_union_r.
  - cbn [nameDB_]. by injection Hname as <- <-.
Qed.

End RepeatFacts.

(** The loop of five passes, generated while [count] is in use. *)
Lemma controls_repeat_ext_literal_5_witness :
  getField (repeat_block "5" ORDER_ATOMIC) "TIMES" = false ∧
  valueInputs (repeat_block "5" ORDER_ATOMIC) !! "TIMES"
    = Some (Some ("5", ORDER_ATOMIC)) ∧
  exists loopVar g',
    Loops.controls_repeat_ext (H := plain) (repeat_block "5" ORDER_ATOMIC) running =
      Normal (Statement
        ("for (int " +:+ loopVar +:+ " = 0; " +:+ loopVar +:+ " < 5; " +:+
         loopVar +:+ "++) {" +:+ Js.NL +:+ "  step();" +:+ Js.NL +:+ "}" +:+ Js.NL)) g' ∧
    (loopVar ∉ dbReverse_ (nameDB_ running)) ∧
    (loopVar ∉ reservedDict_ (nameDB_ running)) ∧
    dbReverse_ (nameDB_ g') = {[ loopVar ]} ∪ dbReverse_ (nameDB_ running).
Proof.
  split; [reflexivity|]. split; [reflexivity|].
  apply (controls_repeat_ext_literal_5 (H := plain)
           (repeat_block "5" ORDER_ATOMIC) running); reflexivity.
Defined.

(** With [count] in use, the loop counts in [count2]. *)
Example controls_repeat_ext_counts_in_count2 :
  exists g',
    Loops.controls_repeat_ext (H := plain) (repeat_block "5" ORDER_ATOMIC) running =
      Normal (Statement
        ("for (int count2 = 0; count2 < 5; count2++) {" +:+ Js.NL +:+
         "  step();" +:+ Js.NL +:+ "}" +:+ Js.NL)) g'.
Proof. eexists. vm_compute. reflexivity. Qed.

(** ** Expressions that a rule needs more than once *)

Section SingleEvaluationFacts.
Context `{Inherited}.







End SingleEvaluationFacts.



(** * Further properties of the generator *)

(** ** [CPP.quote_] and [CPP.multiline_quote_] *)

(** Split on the way a character is escaped. *)
Ltac escape_case c :=
  destruct (escape_char_cases c) as [[-> | [-> | [-> | ->]]] | (? & ? & ? & ?)].

Section QuoteMoreFacts.
Import Js CPP_quote CPP_lines.

Lemma app_inv_tail (s1 s2 t : string) : s1 +:+ t = s2 +:+ t -> s1 = s2.
Proof.
  revert s2. induction s1 as [|a s1 IH]; intros [|b s2] Heq; [done|..];
    rewrite ?app_cons, ?app_nil_l in Heq.
  - apply (f_equal String.length) in Heq. simpl in Heq.
    rewrite length_app in Heq. lia.
  - apply (f_equal String.length) in Heq. simpl in Heq.
    rewrite length_app in Heq. lia.
  - injection Heq as -> Heq. f_equal. by apply IH.
Qed.

Lemma escape_cons (c : ascii) (s : string) :
  escape (String c s) = escape_char c +:+ escape s.
Proof. reflexivity. Qed.

Lemma escape_char_special :
  escape_char BACKSLASH = String BACKSLASH (String BACKSLASH EmptyString) ∧
  escape_char LF = String BACKSLASH (String LF EmptyString) ∧
  escape_char DOLLAR = String BACKSLASH (String DOLLAR EmptyString) ∧
  escape_char DQUOTE = String BACKSLASH (String DQUOTE EmptyString).
Proof. done. Qed.

(** Spell out the escape of the first character of a text. *)
Ltac reveal_escape :=
  rewrite ?escape_cons;
  rewrite ?(proj1 escape_char_special),
          ?(proj1 (proj2 escape_char_special)),
          ?(proj1 (proj2 (proj2 escape_char_special))),
          ?(proj2 (proj2 (proj2 escape_char_special)));
  rewrite ?escape_char_plain by done;
  unfold str; rewrite ?app_cons, ?app_nil_l.

Lemma escape_inj (s1 s2 : string) : escape s1 = escape s2 -> s1 = s2.
Proof.
  revert s2. induction s1 as [|c1 s1 IH]; intros [|c2 s2] Heq; [done|..].
  - exfalso. revert Heq. escape_case c2; simpl escape at 1; reveal_escape; done.
  - exfalso. revert Heq. escape_case c1; simpl escape at 2; reveal_escape; done.
  - revert Heq.
    escape_case c1; escape_case c2; reveal_escape; intros Heq;
      try (injection Heq as Heq; f_equal; by apply IH);
      try (by injection Heq);
      try (injection Heq as Heq1 Heq2; congruence).
    injection Heq as -> Heq. f_equal. by apply IH.
Qed.

(** X1: [CPP.quote_] never gives two different texts the same literal. *)
Theorem quote__distinct (s1 s2 : string) :
  s1 ≠ s2 -> quote_ s1 ≠ quote_ s2.
Proof.
  intros Hne Heq. apply Hne. rewrite !quote__escape in Heq.
  apply (inj (String.append (str DQUOTE))) in Heq.
  by apply app_inv_tail, escape_inj in Heq.
Qed.

(** A dollar sign, and a dollar sign that is already escaped. *)
Lemma quote__distinct_witness :
  quote_ "a$" ≠ quote_ "a\$".
Proof. apply (quote__distinct "a$" "a\$"). discriminate. Defined.

Lemma all_chars_app (p : ascii -> bool) (s t : string) :
  all_chars p (s +:+ t) = all_chars p s && all_chars p t.
Proof.
  induction s as [|a s IH]; [done|].
  rewrite app_cons. simpl. by rewrite IH, andb_assoc.
Qed.

Lemma lacks_escape (c : ascii) (s : string) :
  c ≠ BACKSLASH -> lacks c (escape s) = lacks c s.
Proof.
  intros Hc. unfold lacks. induction s as [|a s IH]; [done|].
  rewrite escape_cons, all_chars_app, IH. cbn [all_chars]. f_equal.
  apply Ascii.eqb_neq in Hc. rewrite Ascii.eqb_sym in Hc.
  escape_case a; reveal_escape; cbn [all_chars]; rewrite ?Hc; cbn [negb andb];
    by rewrite ?andb_true_r.
Qed.

Lemma lacks_quote_ (c : ascii) (s : string) :
  c ≠ BACKSLASH -> c ≠ DQUOTE -> lacks c (quote_ s) = lacks c s.
Proof.
  intros Hb Hq. rewrite quote__escape. unfold lacks.
  rewrite !all_chars_app. fold (lacks c (escape s)). rewrite lacks_escape by done.
  apply Ascii.eqb_neq in Hq. rewrite Ascii.eqb_sym in Hq.
  unfold str, lacks. cbn [all_chars]. rewrite Hq. cbn [negb andb].
  by rewrite andb_true_r.
Qed.

Lemma split_lines_nonempty (s : string) : split_lines s ≠ [].
Proof.
  destruct s as [|c s]; [done|]. cbn [split_lines].
  destruct (Ascii.eqb c LF); [done|]. by destruct (split_lines s).
Qed.

(** The lines of a text, joined by line feeds, are the text. *)
Lemma join_split_lines (s : string) : join NL (split_lines s) = s.
Proof.
  induction s as [|c s IH]; [done|]. cbn [split_lines].
  pose proof (split_lines_nonempty s) as Hne.
  destruct (Ascii.eqb_spec c LF) as [->|Hc];
    destruct (split_lines s) as [|piece pieces]; [done| |done|].
  - cbn [join] in *. rewrite IH. by string_norm.
  - rewrite <- IH. destruct pieces; cbn [join]; by string_norm.
Qed.

(** No line of a text has a line feed. *)
Lemma split_lines_lack_LF (s : string) :
  Forall (fun line => lacks LF line = true) (split_lines s).
Proof.
  induction s as [|c s IH]; [by repeat constructor|]. cbn [split_lines].
  destruct (Ascii.eqb c LF) eqn:Hc; [by constructor|].
  pose proof (split_lines_nonempty s) as Hne.
  destruct (split_lines s) as [|piece pieces]; [done|].
  inversion_clear IH as [|? ? Hpiece Hpieces]. constructor; [|done].
  unfold lacks in *. cbn [all_chars]. by rewrite Hc, Hpiece.
Qed.

(** A text without a line feed is its own single line. *)
Lemma split_lines_single (s : string) :
  lacks LF s = true -> split_lines s = [s].
Proof.
  unfold lacks. induction s as [|c s IH]; [done|]. cbn [all_chars split_lines].
  intros [Hc Hs]%andb_true_iff. apply negb_true_iff in Hc. rewrite Hc.
  by rewrite IH.
Qed.

(** X2: [CPP.multiline_quote_] quotes the lines of a text one by one.  The
    lines joined by line feeds are the text; no quoted line contains a line
    feed, so the line feeds of the result are those of the separators; and
    a text of one line is quoted as by [CPP.quote_]. *)
Theorem multiline_quote__lines (s : string) :
  join NL (split_lines s) = s ∧
  Forall (fun piece => lacks LF piece = true) (quoted_lines s) ∧
  multiline_quote_ s = join line_separator (quote_ <$> split_lines s) ∧
  (lacks LF s = true -> multiline_quote_ s = quote_ s).
Proof.
  split; [apply join_split_lines|]. split; [|split; [done|]].
  - unfold quoted_lines. apply Forall_fmap.
    eapply Forall_impl; [apply split_lines_lack_LF|].
    intros line Hline. cbn. by rewrite lacks_quote_.
  - intros Hs. unfold multiline_quote_, quoted_lines.
    by rewrite split_lines_single.
Qed.

(** One line is quoted as by [quote_]. *)
Lemma multiline_quote__lines_witness :
  multiline_quote_ "ab" = quote_ "ab".
Proof.
  destruct (multiline_quote__lines "ab") as (_ & _ & _ & Hsingle).
  exact (Hsingle eq_refl).
Defined.


Lemma includes_char (c : ascii) (s : string) :
  includes (str c) s = negb (lacks c s).
Proof.
  unfold lacks. induction s as [|a s IH]; [done|].
  cbn [includes starts_with str all_chars]. rewrite IH.
  rewrite (Ascii.eqb_sym c a). destruct (Ascii.eqb a c); [done|].
  by destruct s.
Qed.

Lemma lacks_app (c : ascii) (s t : string) :
  lacks c (s +:+ t) = lacks c s && lacks c t.
Proof. apply all_chars_app. Qed.

(** A text with a line feed has at least two lines. *)
Lemma split_lines_two (s : string) :
  lacks LF s = false -> exists line1 line2 lines, split_lines s = line1 :: line2 :: lines.
Proof.
  unfold lacks. induction s as [|c s IH]; [done|]. cbn [all_chars split_lines].
  pose proof (split_lines_nonempty s) as Hne.
  destruct (Ascii.eqb c LF) eqn:Hc; cbn [negb andb].
  - intros _. destruct (split_lines s) as [|piece pieces]; [done|]. eauto.
  - intros (line1 & line2 & lines & ->)%IH. eauto.
Qed.

Lemma multiline_quote__has_plus (s : string) :
  includes "+" (multiline_quote_ s) = negb (lacks LF s && lacks "+" s).
Proof.
  change "+" with (str "+"%char) at 1. rewrite includes_char. f_equal.
  destruct (lacks LF s) eqn:Hs.
  - unfold multiline_quote_, quoted_lines. rewrite split_lines_single by done.
    cbn [fmap list_fmap join]. by rewrite lacks_quote_.
  - destruct (split_lines_two s Hs) as (line1 & line2 & lines & Hsplit).
    unfold multiline_quote_, quoted_lines. rewrite Hsplit.
    cbn [fmap list_fmap]. cbn [join]. by rewrite !lacks_app, andb_false_r.
Qed.

End QuoteMoreFacts.

Section TextLiteralFacts.
Context `{Inherited}.
Import Js CPP_lines.

(** X4: [text_multiline] gives its code the atomic order exactly when the
    text has neither a line feed nor a plus sign.  A text of several lines
    is a sum of literals and gets the additive order; so does a text of one
    line that merely contains a plus sign, although its code is a single
    literal. *)
Theorem text_multiline_order (block : Block) (text : string) (g : Generator) :
  getFieldValue block "TEXT" = Some text ->
  Texts.text_multiline block g =
    Normal (Tuple (multiline_quote_ text)
                  (if lacks LF text && lacks "+" text
                   then ORDER_ATOMIC else ORDER_ADDITIVE)) g.
Proof.
  intros Hfield. unfold Texts.text_multiline. rewrite Hfield.
  rewrite multiline_quote__has_plus. by destruct (lacks LF text && lacks "+" text).
Qed.

End TextLiteralFacts.

(** The one-line text [1+1] is a single literal of additive order. *)
Lemma text_multiline_order_witness :
  Texts.text_multiline (text_block "text_multiline" "1+1") running =
    Normal (Tuple (CPP_quote.quote_ "1+1") ORDER_ADDITIVE) running.
Proof.
  apply (text_multiline_order (text_block "text_multiline" "1+1") "1+1" running).
  reflexivity.
Defined.

(** ** [CPP.getAdjusted] on literal numbers *)

Section LiteralIndexFacts.
Import Js.

Lemma digit_plain (d : ascii) :
  is_digit d = true -> d ≠ "-"%char ∧ d ≠ "+"%char ∧ is_space d = false.
Proof.
  destruct d as [[] [] [] [] [] [] [] []]; vm_compute; intros Hd;
    try discriminate Hd; by repeat split.
Qed.

(** The text without a leading minus sign, as [isNumber] reads it. *)
Lemma strip_minus_other (c : ascii) (s : string) :
  c ≠ "-"%char ->
  match String c s with String "-" s' => s' | _ => String c s end = String c s.
Proof.
  intros Hc. destruct c as [[] [] [] [] [] [] [] []]; try reflexivity. by destruct Hc.
Qed.

Lemma sign_other (c : ascii) (s : string) :
  c ≠ "-"%char -> c ≠ "+"%char ->
  match String c s with
  | String "-" s' => (true, s')
  | String "+" s' => (false, s')
  | _ => (false, String c s)
  end = (false, String c s).
Proof.
  intros Hm Hp. destruct c as [[] [] [] [] [] [] [] []]; try reflexivity;
    by (destruct Hm || destruct Hp).
Qed.

(** A text that [isNumber] accepts is never read as [NaN] by [parseInt]. *)
Lemma isNumber_parseInt (s : string) :
  isNumber s = true -> exists n, parseInt s = Some n.
Proof.
  unfold isNumber, parseInt. destruct s as [|c s]; [done|].
  destruct (Ascii.eqb_spec c "-"%char) as [->|Hc].
  - change (skip_spaces (String "-" s)) with (String "-"%char s). cbv iota beta.
    destruct (read_digits 0 0 s) as [[n count] rest]. destruct count; [done|]. eauto.
  - rewrite strip_minus_other by done.
    destruct (is_digit c) eqn:Hd.
    + destruct (digit_plain c Hd) as (_ & Hplus & Hspace).
      assert (skip_spaces (String c s) = String c s) as -> by (simpl; by rewrite Hspace).
      rewrite sign_other by done.
      destruct (read_digits 0 0 (String c s)) as [[n count] rest].
      destruct count; [done|]. eauto.
    + simpl. by rewrite Hd.
Qed.

End LiteralIndexFacts.

(** X5: [CPP.getAdjusted] never returns [NaN]: [parseInt] is called only on
    a text that [isNumber] accepts, and it reads every such text. *)
Theorem getAdjusted_never_NaN (block : Block) (atId : string)
    (opt_delta : option Z) (opt_negate : bool) (opt_order : option Q) :
  CPP.getAdjusted block atId opt_delta opt_negate opt_order ≠ JNaN.
Proof.
  unfold CPP.getAdjusted.
  destruct (CPP.adjustedOrders _ _ _) as [outerOrder innerOrder].
  destruct (isNumber _) eqn:Hnumber; [|done].
  by destruct (isNumber_parseInt _ Hnumber) as [n ->].
Qed.

Section LiteralFoldingFacts.
Import Js.






End LiteralFoldingFacts.



(** ** What the rules do to the generator *)

Section ExtendingFacts.
Context `{Inherited}.

#[local] Instance extends_refl : Reflexive extends.
Proof. intros g. by split. Qed.

#[local] Instance extends_trans : Transitive extends.
Proof.
  intros g1 g2 g3 [Hd1 Hf1 Hr1 Hn1 Hi1] [Hd2 Hf2 Hr2 Hn2 Hi2]. split.
  - by etrans.
  - by etrans.
  - congruence.
  - by etrans.
  - congruence.
Qed.

(** An assignment to the registry keeps the keys in place and adds a new
    key at the end. *)
Lemma dict_set_keys (key value : string) (dict : list (string * string)) :
  dict.*1 `prefix_of` (dict_set key value dict).*1.
Proof.
  induction dict as [|[k v] dict IH]; simpl.
  - apply prefix_nil.
  - destruct (decide (k = key)); simpl; [done|]. by apply prefix_cons.
Qed.

Lemma extending_ret {A} (a : A) : extending (mret a).
Proof. intros g a' g' [= _ <-]. done. Qed.

Lemma extending_throw {A} (e : JsError) : extending (throw (A := A) e).
Proof. intros g a g' Hrun. discriminate Hrun. Qed.

Lemma extending_bind {A B} (m : M A) (k : A -> M B) :
  extending m -> (forall a, extending (k a)) -> extending (m ≫= k).
Proof.
  intros Hm Hk g b g' Hrun. unfold mbind, M_bind in Hrun.
  destruct (m g) as [a g1|e] eqn:Hfirst; [|discriminate Hrun].
  etrans; [by eapply Hm|by eapply Hk].
Qed.

Lemma extending_set_definition (key value : string) :
  extending (set_definition key value).
Proof.
  intros g a g' [= _ <-]. split; simpl; try done. apply dict_set_keys.
Qed.

Lemma extending_getDistinctName (name : string) (kind : NameType) :
  extending (nameDB_getDistinctName name kind).
Proof.
  intros g a g' [= _ <-]. split; simpl; try done. apply union_subseteq_r.
Qed.

Lemma extending_provideFunction_ (desiredName : string) (template : string -> string) :
  extending (provideFunction_ desiredName template).
Proof.
  intros g a g' Hrun. unfold provideFunction_ in Hrun.
  destruct (functionNames_ g !! desiredName) as [functionName|] eqn:Hknown.
  - injection Hrun as _ <-. done.
  - simpl in Hrun. injection Hrun as _ <-. split; simpl; try done.
    + apply dict_set_keys.
    + by apply insert_subseteq.
    + apply union_subseteq_r.
Qed.

End ExtendingFacts.

(** Decompose a rule into the calls it is made of. *)
Ltac extending_steps :=
  repeat first
    [ apply extending_ret
    | apply extending_throw
    | apply extending_set_definition
    | apply extending_getDistinctName
    | apply extending_provideFunction_
    | apply extending_bind; [|first [intros [? ?] | intros ?]]
    | match goal with
      | |- extending (if ?c then _ else _) => destruct c
      | |- extending (match ?x with _ => _ end) => destruct x
      end ].

Section RulesExtendFacts.
Context `{Inherited}.

(** X7: no rule for a block takes anything out of the generator.  When a
    rule completes, the registry [definitions_] has the keys it had, in the
    same order, with any new keys after them; every helper function keeps
    its name; and the name table has the same reserved words and still
    holds every identifier that was in use, so that names chosen earlier
    stay distinct from names chosen later. *)
Theorem rules_extend (rule : Block -> M Emitted) (block : Block) (g g' : Generator)
    (emitted : Emitted) :
  rule ∈ block_rules ->
  rule block g = Normal emitted g' ->
  extends g g'.
Proof.
  intros Hrule. revert g emitted g'. change (extending (rule block)).
  unfold block_rules, lenient_rules, strict_rules in Hrule. cbn [app] in Hrule.
  repeat (apply elem_of_cons in Hrule as [-> | Hrule]);
    [.. | by apply elem_of_nil in Hrule].
  all: autounfold with block_rules; unfold ListRules.cacheList; cbv zeta;
    extending_steps.
Qed.

End RulesExtendFacts.

(** The power of two unconnected operands registers the include of
    [cmath], after whatever the registry held. *)
Lemma rules_extend_witness :
  extends running
    {| definitions_ := [("include_cpp_cmath", "#include <cmath>")];
       functionNames_ := functionNames_ running;
       nameDB_ := nameDB_ running;
       isInitialized := true |}.
Proof.
  apply (rules_extend (H := plain) Math.math_arithmetic
           (option_block "math_arithmetic" "OP" "POWER") running _
           (Tuple "pow(0, 0)" ORDER_UNARY_POSTFIX)).
  - apply list_elem_of_In. simpl. tauto.
  - reflexivity.
Defined.

(** ** [controls_if] with any number of conditions *)

Section ControlsIfChainFacts.
Context `{Inherited}.

Lemma controls_if_clause_text (block : Block) (n : nat) (code : string) :
  truthy STATEMENT_SUFFIX = false ->
  Logic.controls_if_clause block n code =
    code +:+ (if (0 <? n)%nat then "else " else EmptyString) +:+ if_clause_text block n.
Proof.
  intros Hsuffix. unfold Logic.controls_if_clause, if_clause_text.
  by rewrite Hsuffix, ?app_assoc.
Qed.

(** From clause [n] on, the loop emits the clauses up to the last condition
    that follows without a gap. *)
Lemma controls_if_loop_chain (block : Block) (k fuel n : nat) (code : string) :
  truthy STATEMENT_SUFFIX = false ->
  (n <= k)%nat -> (k - n <= fuel)%nat ->
  (forall j, (n < j <= k)%nat -> getInput block ("IF" +:+ pretty j) = true) ->
  getInput block ("IF" +:+ pretty (S k)) = false ->
  Logic.controls_if_loop block fuel n code =
    code +:+ (if (0 <? n)%nat then "else " else EmptyString) +:+
    Js.join "else " (if_clause_text block <$> seq n (S k - n)).
Proof.
  intros Hsuffix. revert n code.
  induction fuel as [|fuel IH]; intros n code Hn Hfuel Hpresent Habsent.
  - assert (n = k) as -> by lia. replace (S k - k)%nat with 1%nat by lia.
    simpl. by apply controls_if_clause_text.
  - cbn [Logic.controls_if_loop].
    destruct (decide (n = k)) as [->|Hless].
    + rewrite Habsent. replace (S k - k)%nat with 1%nat by lia.
      simpl. by apply controls_if_clause_text.
    + rewrite Hpresent by lia. rewrite IH; [|lia|lia|intros j Hj; apply Hpresent; lia|done].
      rewrite controls_if_clause_text by done.
      replace (S k - n)%nat with (S (S (k - S n))) by lia.
      replace (S k - S n)%nat with (S (k - S n)) by lia.
      cbn [seq fmap list_fmap Js.join Nat.ltb Nat.leb].
      by rewrite !app_assoc.
Qed.

(** X8: the text of a conditional with any number of conditions.  With no
    statement prefix or suffix configured, a block that has the inputs IF1
    to IFk and no input IF(k+1) emits the clauses of IF0 to IFk: each is
    [if (condition) {], the branch and a closing brace, and the clauses are
    joined by [else ] with nothing before it, so that [else] follows the
    closing brace directly.  An else clause follows if the block has the
    input ELSE.  Inputs after the first missing one are left out. *)
Theorem controls_if_chain (block : Block) (g : Generator) (k : nat) :
  truthy STATEMENT_PREFIX = false ->
  truthy STATEMENT_SUFFIX = false ->
  (forall j, (1 <= j <= k)%nat -> getInput block ("IF" +:+ pretty j) = true) ->
  getInput block ("IF" +:+ pretty (S k)) = false ->
  Logic.controls_if block g =
    Normal (Statement
      (Js.join "else " (if_clause_text block <$> seq 0 (S k)) +:+
       (if getInput block "ELSE"
        then " else {" +:+ Js.NL +:+ statementToCode block "ELSE" +:+ "}"
        else EmptyString) +:+ Js.NL)) g.
Proof.
  intros Hprefix Hsuffix Hpresent Habsent.
  unfold Logic.controls_if. rewrite Hprefix, Hsuffix, orb_false_r.
  assert (k <= Logic.inputCount block)%nat as Hcount.
  { apply if_inputs_count. intros j Hj. apply Hpresent. lia. }
  rewrite (controls_if_loop_chain block k) by (done || lia || (intros; apply Hpresent; lia)).
  replace (S k - 0)%nat with (S k) by lia. cbn [Nat.ltb Nat.leb].
  unfold mret, M_ret. do 2 f_equal.
  destruct (getInput block "ELSE"); by rewrite ?app_nil_l, ?app_assoc.
Qed.

End ControlsIfChainFacts.

(** Three conditions; the stray fifth is left out. *)
Lemma controls_if_chain_witness :
  Logic.controls_if (H := plain) if_chain_block running =
    Normal (Statement
      ("if (A) {" +:+ Js.NL +:+ "  a();" +:+ Js.NL +:+
       "}else if (B) {" +:+ Js.NL +:+ "  b();" +:+ Js.NL +:+
       "}else if (C) {" +:+ Js.NL +:+ "  c();" +:+ Js.NL +:+ "}" +:+ Js.NL)) running.
Proof.
  apply (controls_if_chain (H := plain) if_chain_block running 2); try reflexivity.
  intros j Hj. assert (j = 1 ∨ j = 2)%nat as [-> | ->] by lia; reflexivity.
Defined.

(** ** [math_single]: negation *)

Section NegationFacts.


End NegationFacts.


(** ** Rules that complete *)

Section YieldsFacts.
Context `{Inherited}.

Lemma yields_ret {A} (P : A -> Prop) (a : A) : P a -> yields P (mret a).
Proof. intros Ha g. by exists a, g. Qed.

Lemma yields_bind {A B} (Q : A -> Prop) (P : B -> Prop) (m : M A) (k : A -> M B) :
  yields Q m -> (forall a, Q a -> yields P (k a)) -> yields P (m ≫= k).
Proof.
  intros Hm Hk g. destruct (Hm g) as (a & g1 & Hfirst & Ha).
  destruct (Hk a Ha g1) as (b & g2 & Hsecond & Hb).
  exists b, g2. split; [|done]. unfold mbind, M_bind. by rewrite Hfirst.
Qed.

Lemma yields_set_definition (key value : string) :
  yields (fun _ => True) (set_definition key value).
Proof. intros g. by eexists _, _. Qed.

Lemma yields_getDistinctName (name : string) (kind : NameType) :
  yields (fun _ => True) (nameDB_getDistinctName name kind).
Proof. intros g. rewrite nameDB_getDistinctName_run. by eexists _, _. Qed.

Lemma yields_provideFunction_ (desiredName : string) (template : string -> string) :
  yields (fun _ => True) (provideFunction_ desiredName template).
Proof.
  intros g. unfold provideFunction_.
  destruct (functionNames_ g !! desiredName); [by eexists _, _|].
  destruct (getDistinctName _ _ _). by eexists _, _.
Qed.

Lemma valueToCode_no_target (block : Block) (name : string) (order : Q) :
  getInputTargetBlock block name = None -> valueToCode block name order = EmptyString.
Proof.
  unfold getInputTargetBlock, valueToCode.
  by destruct (valueInputs block !! name) as [[[code inner]|]|].
Qed.

End YieldsFacts.

Section CacheListFacts.
Context `{Inherited}.

Lemma yields_cacheList_getIndex (list : string) :
  yields (fun _ => True) (Lists.cacheList list).
Proof.
  unfold Lists.cacheList. eapply yields_bind; [apply yields_getDistinctName|].
  intros listVar _. by apply yields_ret.
Qed.

Lemma yields_cacheList_setIndex (list : string) :
  yields (fun _ => True) (ListRules.cacheList list).
Proof.
  unfold ListRules.cacheList. destruct (Js.is_word list); [by apply yields_ret|].
  eapply yields_bind; [apply yields_getDistinctName|].
  intros listVar _. by apply yields_ret.
Qed.

End CacheListFacts.

(** Decompose a rule that completes into the calls it is made of. *)
Ltac yields_call :=
  first [ apply yields_set_definition | apply yields_getDistinctName
        | apply yields_provideFunction_ | apply yields_cacheList_getIndex
        | apply yields_cacheList_setIndex ].

Ltac yields_steps :=
  repeat first
    [ apply yields_ret
    | yields_call
    | eapply (yields_bind (fun _ => True)); [|first [intros [? ?] _ | intros ? _]]
    | match goal with
      | |- yields _ (if ?c then _ else _) => destruct c
      | |- yields _ (match ?x with _ => _ end) => destruct x
      end ].

(** ** The list rules: which combinations have code *)

Section ListKindFacts.
Context `{Inherited}.

(** X10: [lists_getIndex] has code for every combination of the modes GET,
    GET_REMOVE and REMOVE with the positions FIRST, LAST, FROM_START,
    FROM_END and RANDOM, whatever the list expression is.  REMOVE gives the
    text of a statement; GET and GET_REMOVE give a value of the order of a
    postfix expression. *)
Theorem lists_getIndex_kind (block : Block) (g : Generator) :
  let mode := field_or block "MODE" "GET" in
  mode ∈ Lists.handled_modes ->
  field_or block "WHERE" "FROM_START" ∈ Lists.handled_wheres ->
  exists emitted g',
    Lists.lists_getIndex block g = Normal emitted g' ∧
    if String.eqb mode "REMOVE" then is_statement emitted
    else is_value ORDER_UNARY_POSTFIX emitted.
Proof.
  intros mode Hmode Hwhere. revert g.
  apply (id : yields (fun emitted => if String.eqb mode "REMOVE"
                                     then is_statement emitted
                                     else is_value ORDER_UNARY_POSTFIX emitted)
                (Lists.lists_getIndex block) -> _).
  unfold Lists.lists_getIndex. fold mode. revert Hmode Hwhere.
  generalize mode as m. generalize (field_or block "WHERE" "FROM_START") as w.
  intros w m Hmode Hwhere. unfold Lists.import_dart_math. cbv zeta.
  unfold Lists.handled_modes in Hmode. unfold Lists.handled_wheres in Hwhere.
  one_of Hmode; one_of Hwhere; eval_eqb; yields_steps; by eexists.
Qed.

(** X11: [lists_setIndex] has code, the text of a statement, exactly for
    the modes SET and INSERT at the positions FIRST, LAST, FROM_START,
    FROM_END and RANDOM, and throws for everything else.  The mode that it
    assumes for a block without a MODE field, GET, is none of the two: such
    a block always ends in the error. *)
Theorem lists_setIndex_handled (block : Block) (g : Generator) :
  let mode := field_or block "MODE" "GET" in
  let where_ := field_or block "WHERE" "FROM_START" in
  (mode ∈ ListRules.handled_modes -> where_ ∈ Lists.handled_wheres ->
   exists emitted g',
     ListRules.lists_setIndex block g = Normal emitted g' ∧ is_statement emitted) ∧
  (mode ∉ ListRules.handled_modes ∨ where_ ∉ Lists.handled_wheres ->
   ListRules.lists_setIndex block g
     = Throw (Error "Unhandled combination (lists_setIndex).")) ∧
  (getFieldValue block "MODE" = None ->
   ListRules.lists_setIndex block g
     = Throw (Error "Unhandled combination (lists_setIndex).")).
Proof.
  intros mode where_.
  assert (mode ∉ ListRules.handled_modes ∨ where_ ∉ Lists.handled_wheres ->
          ListRules.lists_setIndex block g
            = Throw (Error "Unhandled combination (lists_setIndex).")) as Hthrows.
  { unfold ListRules.lists_setIndex. fold mode where_.
    generalize mode as m. generalize where_ as w. intros w m Hunknown. cbv zeta.
    destruct (decide (w ∈ Lists.handled_wheres)) as [Hw|Hw].
    - destruct Hunknown as [Hm|]; [|done].
      unfold Lists.handled_wheres in Hw. one_of Hw; eval_eqb; none_of m Hm;
        try reflexivity.
      + unfold mbind, M_bind.
        destruct (yields_cacheList_setIndex
                    (Js.or_else (valueToCode block "LIST" ORDER_UNARY_POSTFIX) "[]") g)
          as ([code list] & g1 & -> & _).
        reflexivity.
      + unfold mbind, M_bind, Lists.import_dart_math, set_definition.
        match goal with
        | |- context [ListRules.cacheList ?l ?g1] =>
            destruct (yields_cacheList_setIndex l g1) as ([code list] & g2 & -> & _)
        end.
        rewrite nameDB_getDistinctName_run. reflexivity.
    - none_of w Hw. reflexivity. }
  split; [|split; [exact Hthrows|]].
  - intros Hmode Hwhere. revert g Hthrows. intros g _. revert g.
    apply (id : yields is_statement (ListRules.lists_setIndex block) -> _).
    unfold ListRules.lists_setIndex. fold mode where_. revert Hmode Hwhere.
    generalize mode as m. generalize where_ as w.
    intros w m Hmode Hwhere. unfold Lists.import_dart_math. cbv zeta.
    unfold ListRules.handled_modes in Hmode. unfold Lists.handled_wheres in Hwhere.
    one_of Hmode; one_of Hwhere; eval_eqb; yields_steps; by eexists.
  - intros Hfield. apply Hthrows. left. unfold mode, field_or. rewrite Hfield.
    vm_compute. intros Hin.
    repeat (apply elem_of_cons in Hin as [? | Hin]; [discriminate|]).
    by apply elem_of_nil in Hin.
Qed.

End ListKindFacts.

(** Reading the element at position -3 gives a value. *)
Lemma lists_getIndex_kind_witness :
  exists emitted g',
    Lists.lists_getIndex negative_index_block running = Normal emitted g' ∧
    is_value ORDER_UNARY_POSTFIX emitted.
Proof.
  apply (lists_getIndex_kind negative_index_block running);
    apply list_elem_of_In; vm_compute; tauto.
Defined.

(** A block with a position and no MODE field. *)
Lemma lists_setIndex_handled_witness :
  ListRules.lists_setIndex (option_block "lists_setIndex" "WHERE" "FIRST") running
    = Throw (Error "Unhandled combination (lists_setIndex).").
Proof.
  destruct (lists_setIndex_handled (option_block "lists_setIndex" "WHERE" "FIRST") running)
    as (_ & _ & Hmissing).
  exact (Hmissing eq_refl).
Defined.

(** Evaluate the comparisons of closed field values in the goal. *)
Ltac eval_decide :=
  repeat match goal with
  | |- context [bool_decide (?a = ?b)] =>
      first [ rewrite (bool_decide_eq_true_2 (a = b)) by reflexivity
            | rewrite (bool_decide_eq_false_2 (a = b)) by discriminate ]
  end;
  cbn [andb orb negb].

(** Use that the field value [x] is none of the members of a list. *)
Ltac no_field_of x Hout :=
  repeat match goal with
  | |- context [bool_decide (x = ?k)] =>
      rewrite (bool_decide_eq_false_2 (x = k))
        by (intros ->; apply Hout; apply list_elem_of_In; simpl; tauto)
  end;
  cbn [andb orb negb].

Section MoreOptionFacts.
Context `{Inherited}.

(** X12: [math_on_list] has code for the sum, the minimum, the maximum and
    the average of a list: a call of a helper function on the list.  Every
    other function, among them the median, the modes, the standard
    deviation and the random item that its [switch] names, ends in the
    error [Unknown operator]. *)
Theorem math_on_list_handled (block : Block) (g : Generator) :
  let func := getFieldValue block "OP" in
  let list := Js.or_else (valueToCode block "LIST" ORDER_NONE) "[]" in
  (func ∈ Some <$> MathRules.handled_functions ->
   exists emitted g',
     MathRules.math_on_list block g = Normal emitted g' ∧
     exists functionName,
       emitted = Tuple (functionName +:+ "(" +:+ list +:+ ")") ORDER_UNARY_POSTFIX) ∧
  (func ∉ Some <$> MathRules.handled_functions ->
   MathRules.math_on_list block g
     = Throw (Error ("Unknown operator: " +:+ show func))).
Proof.
  intros func list. split.
  - intros Hfunc. revert g.
    apply (id : yields (fun emitted => exists functionName,
                          emitted = Tuple (functionName +:+ "(" +:+ list +:+ ")")
                                          ORDER_UNARY_POSTFIX)
                  (MathRules.math_on_list block) -> _).
    unfold MathRules.math_on_list, MathRules.include_numeric. fold func list.
    revert Hfunc. generalize func as f. intros f Hfunc. cbv zeta.
    cbn [fmap list_fmap MathRules.handled_functions] in Hfunc.
    one_of Hfunc; eval_decide; yields_steps; by eexists.
  - unfold MathRules.math_on_list. fold func list.
    generalize func as f. intros f Hfunc. cbv zeta.
    cbn [fmap list_fmap MathRules.handled_functions] in Hfunc.
    no_field_of f Hfunc. reflexivity.
Qed.

(** X13: [lists_getSublist] checks WHERE1 and WHERE2 only on one of its two
    paths.  Where it writes the indices into the code itself (the list is a
    plain identifier, or no length is needed), it has code for the positions
    FROM_START, FROM_END and FIRST of the start and FROM_START, FROM_END and
    LAST of the end, and throws for every other value.  Where it calls its
    helper function it never throws: the two values, whatever they are, are
    written into the call as quoted texts. *)
Theorem lists_getSublist_validation (block : Block) (g : Generator) :
  let list := Js.or_else (valueToCode block "LIST" ORDER_UNARY_POSTFIX) "[]" in
  let where1 := getFieldValue block "WHERE1" in
  let where2 := getFieldValue block "WHERE2" in
  (ListRules.without_helper list where1 where2 = true ->
   (where1 ∈ ListRules.handled_where1 -> where2 ∈ ListRules.handled_where2 ->
    exists code,
      ListRules.lists_getSublist block g = Normal (Tuple code ORDER_UNARY_POSTFIX) g) ∧
   (where1 ∉ ListRules.handled_where1 ∨ where2 ∉ ListRules.handled_where2 ->
    ListRules.lists_getSublist block g
      = Throw (Error "Unhandled option (lists_getSublist)."))) ∧
  (ListRules.without_helper list where1 where2 = false ->
   exists functionName g',
     ListRules.lists_getSublist block g =
       Normal (Tuple (functionName +:+ "(" +:+ list +:+ ", '" +:+ show where1 +:+ "', " +:+
                      toStr (CPP.getAdjusted block "AT1" None false None) +:+ ", '" +:+
                      show where2 +:+ "', " +:+
                      toStr (CPP.getAdjusted block "AT2" None false None) +:+ ")")
                     ORDER_UNARY_POSTFIX) g').
Proof.
  intros list where1 where2. unfold ListRules.lists_getSublist. fold list where1 where2.
  generalize where1 as w1. generalize where2 as w2. intros w2 w1. cbv zeta.
  split.
  - intros ->. split.
    + intros H1 H2. unfold ListRules.handled_where1 in H1.
      unfold ListRules.handled_where2 in H2.
      one_of H1; one_of H2; eval_decide; eexists; reflexivity.
    + intros Hunknown.
      destruct (decide (w1 ∈ ListRules.handled_where1)) as [H1|H1].
      * destruct Hunknown as [|H2]; [done|].
        unfold ListRules.handled_where1 in H1.
        one_of H1; eval_decide; no_field_of w2 H2; reflexivity.
      * no_field_of w1 H1. reflexivity.
  - intros ->. unfold mbind, M_bind.
    destruct (yields_provideFunction_ "lists_get_sublist"
                ListRules.lists_get_sublist_template g)
      as (functionName & g' & -> & _).
    by exists functionName, g'.
Qed.

(** X14: in [text_charAt] the position LAST is the position FROM_END: the
    index 1 that the rule assigns for LAST is overwritten by the adjusted
    index of the input AT.  The code is a call of the helper function on the
    text and that index.  With nothing connected to AT, as on a block made
    for LAST, the index is 1 whether indices count from 0 or from 1. *)
Theorem text_charAt_last (block : Block) (g : Generator) :
  field_or block "WHERE" "FROM_START" = "LAST" ->
  let text := Js.or_else (valueToCode block "VALUE" ORDER_NONE) "''" in
  let at_ := CPP.getAdjusted block "AT" (Some 1) false None in
  (exists functionName g',
     TextRules.text_charAt block g =
       Normal (Tuple (functionName +:+ "(" +:+ text +:+ ", " +:+ toStr at_ +:+ ")")
                     ORDER_UNARY_POSTFIX) g') ∧
  (getInputTargetBlock block "AT" = None -> at_ = JNum 1).
Proof.
  intros Hwhere text at_. split.
  - unfold TextRules.text_charAt. rewrite Hwhere. eval_eqb. cbv zeta.
    fold text at_. unfold mbind, M_bind.
    destruct (yields_provideFunction_ "text_get_from_end"
                TextRules.text_get_from_end_template g)
      as (functionName & g' & -> & _).
    by exists functionName, g'.
  - intros Hfree. unfold at_, CPP.getAdjusted, CPP.adjustedDelta, CPP.defaultAtIndex.
    destruct (oneBasedIndex block); cbn [default];
      destruct (CPP.adjustedOrders _ false _) as [outer inner];
      by rewrite valueToCode_no_target.
Qed.

End MoreOptionFacts.

(** The median of a list. *)
Lemma math_on_list_handled_witness :
  MathRules.math_on_list (option_block "math_on_list" "OP" "MEDIAN") running
    = Throw (Error "Unknown operator: MEDIAN").
Proof.
  destruct (math_on_list_handled (option_block "math_on_list" "OP" "MEDIAN") running)
    as [_ Hunknown].
  apply Hunknown. vm_compute. intros Hin.
  repeat (apply elem_of_cons in Hin as [? | Hin]; [discriminate|]).
  by apply elem_of_nil in Hin.
Defined.

(** A start position that is none of the known ones is reported for the
    list [items], and written into the code for the list [f()]. *)
Lemma lists_getSublist_validation_witness :
  ListRules.lists_getSublist (sublist_block "items" "MIDDLE" "LAST") running
    = Throw (Error "Unhandled option (lists_getSublist).") ∧
  exists functionName g',
    ListRules.lists_getSublist (sublist_block "f()" "MIDDLE" "LAST") running
      = Normal (Tuple (functionName +:+ "(f(), 'MIDDLE', 1, 'LAST', 2)")
                      ORDER_UNARY_POSTFIX) g'.
Proof.
  split.
  - destruct (lists_getSublist_validation (sublist_block "items" "MIDDLE" "LAST") running)
      as [[_ Hunknown] _]; [reflexivity|].
    apply Hunknown. left. vm_compute. intros Hin.
    repeat (apply elem_of_cons in Hin as [? | Hin]; [discriminate|]).
    by apply elem_of_nil in Hin.
  - destruct (lists_getSublist_validation (sublist_block "f()" "MIDDLE" "LAST") running)
      as [_ Hhelper].
    destruct (Hhelper eq_refl) as (functionName & g' & Hrun).
    exists functionName, g'. exact Hrun.
Defined.

(** The last letter of [s] is the first from the end in both index bases. *)
Lemma text_charAt_last_witness :
  CPP.getAdjusted (last_letter_block false) "AT" (Some 1) false None = JNum 1 ∧
  CPP.getAdjusted (last_letter_block true) "AT" (Some 1) false None = JNum 1.
Proof.
  split.
  - destruct (text_charAt_last (last_letter_block false) running eq_refl) as [_ Hindex].
    exact (Hindex eq_refl).
  - destruct (text_charAt_last (last_letter_block true) running eq_refl) as [_ Hindex].
    exact (Hindex eq_refl).
Defined.

(** ** Which rules can end in an error *)

Section LenientFacts.
Context `{Inherited}.


End LenientFacts.


(** ** Literal indices in [lists_getIndex] *)

Section LiteralAccessFacts.
Context `{Inherited}.



End LiteralAccessFacts.

